(** * simply-lingo: the per-word pipeline of [main.go]

    A shallow embedding of the loop of [func main] in [src/main.go]
    (lines 131-265): for each spreadsheet row it looks the word up in
    Yandex.Dictionary, fetches an ElevenLabs audio clip unless one is on
    disk, and writes one CSV record.  The properties of the
    natural-language specification are stated and settled over it.

    The loop body is a function from state to state.  The state holds the
    files on disk, the effects performed so far in program order, and the
    counter [processedWords].  What [main] fixes before the loop is a
    parameter: the two API keys read from the environment and
    [totalWords].  Everything outside the process (the two HTTP services,
    the JSON codec, [filepath.Join], the failures of the file system and
    of the CSV writer) is a field of the record [Extern], and may depend on
    all that happened before; every theorem is proved for an arbitrary
    [Extern].

    Not modelled, for having no effect the loop can observe: the calls of
    [resp.Body.Close] and [audioFile.Close] and the deferred ones, and the
    rendering of [Printf] verbs (a log or progress line is kept as its
    format and arguments).

    The last part of the file embeds the rest of [main] (lines 64-129 and
    267-268) around the loop, with the start-up's outside in the record
    [Process]; there a line of [fmt.Println] or [log.Fatal] is kept as its
    text, without arguments. *)

From Stdlib Require Import ZArith QArith.QArith_base Ascii String.
From stdpp Require Import gmap strings list.

Local Open Scope string_scope.
Local Open Scope list_scope.

(** ** Data model (main.go, lines 18-62) *)

(** [any]: a decoded JSON value nobody looks at; kept as its raw text. *)
Inductive any :=
| any_nil
| any_raw (json : string).

Record Synonym := { Synonym_Text : string }.
Record Meaning := { Meaning_Text : string }.

(** [Translation] and [Example] refer to each other ([Example.Tr]). *)
Inductive Translation := mkTranslation {
  Translation_Text : string;
  Translation_Pos  : string;
  Syn  : list Synonym;
  Mean : list Meaning;
  Ex   : list Example
}
with Example := mkExample {
  Example_Text : string;
  Example_Tr   : list Translation
}.

(** Go's [Definition] struct; the name is a keyword here. *)
Record DicDefinition := {
  Definition_Text : string;
  Definition_Pos  : string;
  Tr : list Translation
}.

Record DicResult := {
  Head : any;
  Def  : list DicDefinition
}.

Record VoiceSettings := {
  Stability       : Q;
  SimilarityBoost : Q
}.

Record ElevenLabsRequest := {
  Text          : string;
  ModelID       : string;
  VoiceID       : string;
  Settings      : VoiceSettings
}.

(** ** The libraries' data, as far as [main] touches it *)

(** Go's [error] values.  [main] tells them apart in one place only,
    [os.IsNotExist]; everywhere else an error is printed with [%v]. *)
Inductive error :=
| ErrNotExist
| ErrOther (msg : string).

(** A result paired with Go's [err]: [inl v] is [(v, nil)]. *)
Definition result (A : Type) : Type := A + error.

(** [io.ReadCloser]: the bytes a reader delivers, and the error (if any)
    it ends with instead of a clean EOF. *)
Record ReadCloser := {
  data    : string;
  failure : option error
}.

(** [http.Response] *)
Record Response := {
  StatusCode : Z;
  Body       : ReadCloser
}.

(** [http.Request] *)
Record Request := {
  Method    : string;
  URL       : string;
  Header    : gmap string string;
  Payload   : string
}.

Definition StatusOK : Z := 200.

(** [xlsx.Cell] and [xlsx.Row]: a cell is what its [String()] method
    renders. *)
Record Cell := { Value : string }.
Definition Cell_String (c : Cell) : string := Value c.
Record Row := { Cells : list Cell }.

#[global] Instance Cell_inhabited : Inhabited Cell := populate {| Value := "" |}.

(** Arguments of a [Printf] call. *)
Inductive Arg :=
| AStr (s : string)
| AInt (n : Z)
| AErr (e : error).

(** What the process does to the outside, in program order. *)
Inductive Event :=
| EvPrint (format : string) (args : list Arg)          (* fmt.Printf *)
| EvLog (format : string) (args : list Arg)            (* log.Printf *)
| EvGet (url : string)                                 (* http.Get *)
| EvDo (req : Request)                                 (* client.Do *)
| EvWrite (record : list string) (err : option error). (* csvWriter.Write *)

(** The state one loop iteration hands to the next: the files on disk
    ([fs], path to content), the effects so far and the counter. *)
Record State := mkState {
  fs             : gmap string string;
  trace          : list Event;
  processedWords : Z
}.

(** ** The outside world *)

Record Extern := {
  (** [http.Get url]: the dictionary service's answer after [st]. *)
  net_Get : State -> string -> result Response;
  (** [client.Do req]: the speech service's answer after [st]. *)
  net_Do : State -> Request -> result Response;
  (** [json.Unmarshal body &result] into a zero [DicResult]. *)
  json_Unmarshal : string -> result DicResult;
  (** [json.Marshal elevenLabsReq] *)
  json_Marshal : ElevenLabsRequest -> result string;
  (** [http.NewRequest]'s refusal of a method or URL. *)
  NewRequest_err : string -> string -> option error;
  (** [filepath.Join] *)
  filepath_Join : string -> string -> string;
  (** [os.Stat] failing for a reason other than ENOENT (EACCES,
      ENAMETOOLONG, ENOTDIR, ...), with the message. *)
  stat_fault : State -> string -> option string;
  (** [os.Create] failing *)
  create_fault : State -> string -> option error;
  (** A write to the file failing after [n] bytes during [io.Copy]. *)
  write_fault : State -> string -> option (nat * error);
  (** [csvWriter.Write] failing *)
  csv_fault : State -> list string -> option error
}.

(** ** [fmt.Sprintf] with [%s] verbs *)

Fixpoint Sprintf (format : string) (args : list string) : string :=
  match format with
  | EmptyString => EmptyString
  | String "%"%char (String "s"%char rest) =>
      match args with
      | a :: args' => a ++ Sprintf rest args'
      | [] => "%!s(MISSING)" ++ Sprintf rest []
      end
  | String c rest => String c (Sprintf rest args)
  end.

(** ** Control flow of one loop iteration

    A statement of the loop body either falls through with a value or
    executes [continue]; both may have changed the state. *)

Inductive Flow (A : Type) :=
| Next (a : A)
| Continue.
Arguments Next {A} a.
Arguments Continue {A}.

Definition Step (A : Type) : Type := State -> Flow A * State.

Definition ret {A} (a : A) : Step A := fun st => (Next a, st).

Definition bind {A B} (m : Step A) (k : A -> Step B) : Step B :=
  fun st =>
    match m st with
    | (Next a, st') => k a st'
    | (Continue, st') => (Continue, st')
    end.

Definition continue {A} : Step A := fun st => (Continue, st).

Declare Scope step_scope.
Delimit Scope step_scope with step.
Bind Scope step_scope with Step.
Notation "'let*' x ':=' m 'in' k" := (bind m (fun x => k))
  (at level 10, x name, m at level 100, k at level 200) : step_scope.
Notation "m ;; k" := (bind m (fun _ => k))
  (at level 100, k at level 200, right associativity) : step_scope.

#[global] Instance DicDefinition_inhabited : Inhabited DicDefinition :=
  populate {| Definition_Text := ""; Definition_Pos := ""; Tr := [] |}.
#[global] Instance Translation_inhabited : Inhabited Translation :=
  populate (mkTranslation "" "" [] [] []).

(** [os.IsNotExist] *)
Definition os_IsNotExist (err : option error) : bool :=
  match err with
  | Some ErrNotExist => true
  | _ => false
  end.

(** [io.ReadAll]: what was read, and the error the reader ended with. *)
Definition io_ReadAll (r : ReadCloser) : string * option error :=
  (data r, failure r).

(** The constants of [main] (lines 117-127). *)
Definition audioDir : string := "audio".
Definition lang : string := "en-ru".
Definition yandexBaseURL : string :=
  "https://dictionary.yandex.net/api/v1/dicservice.json/lookup".
Definition elevenLabsBaseURL : string :=
  "https://api.elevenlabs.io/v1/text-to-speech".
Definition voiceID : string := "21m00Tcm4TlvDq8ikWAM".

(** ** What an observer sees of a state *)

Definition written (e : Event) : option (list string) :=
  match e with
  | EvWrite record _ => Some record
  | _ => None
  end.

Definition sent_Do (e : Event) : option Request :=
  match e with
  | EvDo req => Some req
  | _ => None
  end.

Definition sent_Get (e : Event) : option string :=
  match e with
  | EvGet u => Some u
  | _ => None
  end.

(** The records handed to [csvWriter.Write], in order: the output rows. *)
Definition emitted (st : State) : list (list string) := omap written (trace st).

(** The requests sent to the speech service, in order. *)
Definition synthesis_requests (st : State) : list Request := omap sent_Do (trace st).

(** The URLs requested from the dictionary service, in order. *)
Definition translation_requests (st : State) : list string := omap sent_Get (trace st).

(** ** A sample world

    One concrete outside world, used to run the pipeline on examples.  Its
    codec agrees with [encoding/json] on the bodies listed here, its
    [filepath.Join] with Go's on a directory and a plain file name. *)

Module Sample.

(** The double quote, and a quoted JSON string. *)
Definition dq : string := String (ascii_of_nat 34) EmptyString.
Definition q (s : string) : string := dq ++ s ++ dq.

Definition ok (code : Z) (body : string) : result Response :=
  inl {| StatusCode := code; Body := {| data := body; failure := None |} |}.

(** [{"def":[{"text":"hello","pos":"noun","tr":[{"text":"privet","pos":"noun"}]}]}] *)
Definition body_hello : string :=
  "{" ++ q "def" ++ ":[{" ++ q "text" ++ ":" ++ q "hello" ++ "," ++ q "pos" ++ ":" ++ q "noun"
      ++ "," ++ q "tr" ++ ":[{" ++ q "text" ++ ":" ++ q "privet" ++ "," ++ q "pos" ++ ":" ++ q "noun" ++ "}]}]}".
Definition result_hello : DicResult :=
  {| Head := any_nil;
     Def := [ {| Definition_Text := "hello"; Definition_Pos := "noun";
                 Tr := [mkTranslation "privet" "noun" [] [] []] |} ] |}.

(** [{"def":[{"text":"bare","pos":"noun"}]}]: a definition without
    translations. *)
Definition body_bare : string :=
  "{" ++ q "def" ++ ":[{" ++ q "text" ++ ":" ++ q "bare" ++ "," ++ q "pos" ++ ":" ++ q "noun" ++ "}]}".
Definition result_bare : DicResult :=
  {| Head := any_nil;
     Def := [ {| Definition_Text := "bare"; Definition_Pos := "noun"; Tr := [] |} ] |}.

(** [{}] and [{"def":[]}] decode to a result without definitions. *)
Definition body_nodef : string := "{" ++ q "def" ++ ":[]}".
Definition result_zero : DicResult := {| Head := any_nil; Def := [] |}.

Definition decode (body : string) : result DicResult :=
  if decide (body = body_hello) then inl result_hello
  else if decide (body = body_bare) then inl result_bare
  else if decide (body = body_nodef) then inl result_zero
  else if decide (body = "{}") then inl result_zero
  else inr (ErrOther "invalid character '<' looking for beginning of value").

Definition encode_text (r : ElevenLabsRequest) : string :=
  "{" ++ q "text" ++ ":" ++ q (Text r) ++ "," ++ q "model_id" ++ ":" ++ q (ModelID r)
      ++ "," ++ q "voice_id" ++ ":" ++ q (VoiceID r) ++ ","
      ++ q "voice_settings" ++ ":{" ++ q "stability" ++ ":0.5," ++ q "similarity_boost" ++ ":0.5}}".
Definition encode (r : ElevenLabsRequest) : result string := inl (encode_text r).

Definition join (dir name : string) : string := dir ++ "/" ++ name.

Definition lookup_url (word : string) : string :=
  yandexBaseURL ++ "?key=YKEY&lang=en-ru&text=" ++ word.

(** The dictionary service, by word: it knows [hello], [locked] and
    [bare], answers [denied] with status 403, [broken] with a page of
    HTML, breaks off on [cut], cannot be reached for [offline], and has
    no definition for any other word. *)
Definition dictionary : list (string * result Response) :=
  [ ("hello",   ok 200 body_hello);
    ("locked",  ok 200 body_hello);
    ("bare",    ok 200 body_bare);
    ("denied",  ok 403 "{}");
    ("broken",  ok 200 "<html>");
    ("cut",     inl {| StatusCode := 200;
                       Body := {| data := "{"; failure := Some (ErrOther "unexpected EOF") |} |});
    ("offline", inr (ErrOther "dial tcp: lookup dictionary.yandex.net: no such host")) ].

Fixpoint answer (table : list (string * result Response)) (u : string) : result Response :=
  match table with
  | [] => ok 200 body_nodef
  | (word, r) :: rest => if decide (lookup_url word = u) then r else answer rest u
  end.

(** The speech service: refuses the word [mute] with status 500, serves
    any other request. *)
Definition mute_payload : string :=
  encode_text {| Text := "mute"; ModelID := "eleven_multilingual_v2"; VoiceID := voiceID;
                 Settings := {| Stability := Qmake 1 2; SimilarityBoost := Qmake 1 2 |} |}.
Definition speech (req : Request) : result Response :=
  if decide (Payload req = mute_payload) then ok 500 "{}" else ok 200 "ID3".

(** The file system denies [os.Stat] on one path, and refuses a file
    name of more than 255 bytes under [audio/] as too long. *)
Definition stat (name : string) : option string :=
  if decide (name = "audio/locked.mp3") then Some "permission denied"
  else if (261 <? String.length name)%nat then Some "file name too long"
  else None.

(** A word of [n] letters. *)
Fixpoint letters (n : nat) : string :=
  match n with
  | O => EmptyString
  | S n' => String "a"%char (letters n')
  end.

Definition world : Extern :=
  {| net_Get := fun _ u => answer dictionary u;
     net_Do := fun _ req => speech req;
     json_Unmarshal := decode;
     json_Marshal := encode;
     NewRequest_err := fun _ _ => None;
     filepath_Join := join;
     stat_fault := fun _ name => stat name;
     create_fault := fun _ _ => None;
     write_fault := fun _ _ => None;
     csv_fault := fun _ _ => None |}.

Definition entry (word gloss : string) : Row :=
  {| Cells := [ {| Value := word |}; {| Value := gloss |} ] |}.

(** An empty audio directory, nothing done yet. *)
Definition start : State := mkState ∅ [] 0.

(** The same with a zero-byte [audio/hello.mp3]. *)
Definition cached : State := mkState {[ "audio/hello.mp3" := "" ]} [] 0.

End Sample.

Section Pipeline.

Variable ext : Extern.
(** Read from the environment before the loop (lines 105-115). *)
Variables yandexAPIKey elevenLabsAPIKey : string.
(** Counted before the loop (lines 83-88). *)
Variable totalWords : Z.

Local Open Scope step_scope.

(** *** The effects *)

Definition record_event (e : Event) (st : State) : State :=
  mkState (fs st) (trace st ++ [e]) (processedWords st).

Definition write_file (name content : string) (st : State) : State :=
  mkState (<[name := content]> (fs st)) (trace st) (processedWords st).

Definition fmt_Printf (format : string) (args : list Arg) : Step unit :=
  fun st => (Next tt, record_event (EvPrint format args) st).

Definition log_Printf (format : string) (args : list Arg) : Step unit :=
  fun st => (Next tt, record_event (EvLog format args) st).

(** [fmt.Printf("Current progress: %d/%d", processedWords, totalWords)] *)
Definition print_progress : Step unit :=
  fun st =>
    fmt_Printf "Current progress: %d/%d"
      [AInt (processedWords st); AInt totalWords] st.

Definition http_Get (url : string) : Step (result Response) :=
  fun st => (Next (net_Get ext st url), record_event (EvGet url) st).

Definition http_NewRequest (method url body : string) : result Request :=
  match NewRequest_err ext method url with
  | Some err => inr err
  | None => inl {| Method := method; URL := url; Header := ∅; Payload := body |}
  end.

(** [req.Header.Set(key, value)] *)
Definition Header_Set (key value : string) (req : Request) : Request :=
  {| Method := Method req; URL := URL req;
     Header := <[key := value]> (Header req); Payload := Payload req |}.

Definition client_Do (req : Request) : Step (result Response) :=
  fun st => (Next (net_Do ext st req), record_event (EvDo req) st).

(** The error of [os.Stat name] in [st]: nil when the file is there and
    can be reached, ENOENT when it is not there. *)
Definition stat_error (st : State) (name : string) : option error :=
  match stat_fault ext st name with
  | Some msg => Some (ErrOther msg)
  | None =>
      match fs st !! name with
      | Some _ => None
      | None => Some ErrNotExist
      end
  end.

Definition os_Stat (name : string) : Step (option error) :=
  fun st => (Next (stat_error st name), st).

(** [os.Create name]: the file is created or truncated. *)
Definition os_Create (name : string) : Step (result string) :=
  fun st =>
    match create_fault ext st name with
    | Some err => (Next (inr err), st)
    | None => (Next (inl name), write_file name "" st)
    end.

(** [io.Copy(audioFile, resp.Body)], its error only. *)
Definition io_Copy (dst : string) (src : ReadCloser) : Step (option error) :=
  fun st =>
    match write_fault ext st dst with
    | Some (n, err) => (Next (Some err), write_file dst (substring 0 n (data src)) st)
    | None => (Next (failure src), write_file dst (data src) st)
    end.

Definition csvWriter_Write (record : list string) : Step (option error) :=
  fun st =>
    let err := csv_fault ext st record in
    (Next err, record_event (EvWrite record err) st).

(** [processedWords++] *)
Definition incr_processedWords : Step unit :=
  fun st => (Next tt, mkState (fs st) (trace st) (processedWords st + 1)).

(** *** The values the loop body computes *)

(** Line 149: the lookup URL. *)
Definition url (word : string) : string :=
  Sprintf "%s?key=%s&lang=%s&text=%s" [yandexBaseURL; yandexAPIKey; lang; word].

(** Lines 172-175: the first translation of the first definition, if
    there is one. *)
Definition russian (result : DicResult) : string :=
  if bool_decide (0 < length (Def result))%nat
     && bool_decide (0 < length (Tr (Def result !!! 0%nat)))%nat
  then Translation_Text (Tr (Def result !!! 0%nat) !!! 0%nat)
  else "".

(** Lines 178-179. *)
Definition audioFilename (word : string) : string := Sprintf "%s.mp3" [word].
Definition audioPath (word : string) : string :=
  filepath_Join ext audioDir (audioFilename word).

(** Lines 184-192. *)
Definition elevenLabsReq (word : string) : ElevenLabsRequest :=
  {| Text := word;
     ModelID := "eleven_multilingual_v2";
     VoiceID := voiceID;
     Settings := {| Stability := Qmake 1 2; SimilarityBoost := Qmake 1 2 |} |}.

(** Lines 209-210. *)
Definition set_headers (req : Request) : Request :=
  Header_Set "xi-api-key" elevenLabsAPIKey
    (Header_Set "Content-Type" "application/json" req).

(** Line 253. *)
Definition soundField (word : string) : string :=
  Sprintf "[sound:%s]" [audioFilename word].

(** *** Lines 142-143 *)
Definition announce (word : string) : Step unit :=
  fmt_Printf "\r\033[2KProcessing word: %s\n" [AStr word] ;;
  print_progress.

(** *** Lines 148-175: the dictionary lookup; yields [russian]. *)
Definition translation_stage (word : string) : Step string :=
  let* r := http_Get (url word) in
  match r with
  | inr err =>
      log_Printf "\r\033[2KError fetching translation for %s: %v" [AStr word; AErr err] ;;
      print_progress ;;
      continue
  | inl resp =>
  let (body, err) := io_ReadAll (Body resp) in
  match err with
  | Some err =>
      log_Printf "\r\033[2KError reading response for %s: %v" [AStr word; AErr err] ;;
      print_progress ;;
      continue
  | None =>
  match json_Unmarshal ext body with
  | inr err =>
      log_Printf "\r\033[2KError parsing JSON for %s: %v" [AStr word; AErr err] ;;
      print_progress ;;
      continue
  | inl result =>
      ret (russian result)
  end end end.

(** *** Lines 177-250: the audio clip, fetched when [os.Stat] says
    ENOENT and taken as present otherwise. *)
Definition audio_stage (word : string) : Step unit :=
  let* err := os_Stat (audioPath word) in
  if os_IsNotExist err then
    match json_Marshal ext (elevenLabsReq word) with
    | inr err =>
        log_Printf "\r\033[2KError creating request for ElevenLabs for %s: %v" [AStr word; AErr err] ;;
        print_progress ;;
        continue
    | inl reqBody =>
    match http_NewRequest "POST" (Sprintf "%s/%s" [elevenLabsBaseURL; voiceID]) reqBody with
    | inr err =>
        log_Printf "\r\033[2KError creating HTTP request for %s: %v" [AStr word; AErr err] ;;
        print_progress ;;
        continue
    | inl req =>
    let req := set_headers req in
    let* r := client_Do req in
    match r with
    | inr err =>
        log_Printf "\r\033[2KError generating audio for %s: %v" [AStr word; AErr err] ;;
        print_progress ;;
        continue
    | inl resp =>
    if bool_decide (StatusCode resp ≠ StatusOK) then
      let (responseBody, _) := io_ReadAll (Body resp) in
      log_Printf "\r\033[2KElevenLabs API error for %s: %d - %s"
        [AStr word; AInt (StatusCode resp); AStr responseBody] ;;
      print_progress ;;
      continue
    else
    let* r := os_Create (audioPath word) in
    match r with
    | inr err =>
        log_Printf "\r\033[2KError creating audio file for %s: %v" [AStr word; AErr err] ;;
        print_progress ;;
        continue
    | inl audioFile =>
    let* err := io_Copy audioFile (Body resp) in
    match err with
    | Some err =>
        log_Printf "\r\033[2KError saving audio file for %s: %v" [AStr word; AErr err] ;;
        print_progress ;;
        continue
    | None =>
        log_Printf "\r\033[2KCreated audio file for: %s" [AStr word] ;;
        print_progress
    end end end end end
  else
    log_Printf "\r\033[2KAudio file for %s already exists, skipping generation" [AStr word] ;;
    print_progress.

(** *** Lines 252-264: the CSV record and the counter. *)
Definition output_stage (word exampleSentence russian : string) : Step unit :=
  let* err := csvWriter_Write [word; exampleSentence; soundField word; russian] in
  match err with
  | Some err =>
      log_Printf "\r\033[2KError writing CSV row for %s: %v" [AStr word; AErr err] ;;
      print_progress
  | None => ret tt
  end ;;
  incr_processedWords.

(** *** Lines 131-265: the body of [for _, row := range sheet.Rows]. *)
Definition loop_body (row : Row) : Step unit :=
  if bool_decide (length (Cells row) < 2)%nat then continue else
  let word := Cell_String (Cells row !!! 0%nat) in
  let definition := Cell_String (Cells row !!! 1%nat) in
  announce word ;;
  let exampleSentence := definition in
  let* russian := translation_stage word in
  audio_stage word ;;
  output_stage word exampleSentence russian.

(** The state after the iteration, whichever way it ended. *)
Definition iteration (st : State) (row : Row) : State := snd (loop_body row st).

(** [for _, row := range sheet.Rows { ... }] *)
Fixpoint range_Rows (rows : list Row) (st : State) : State :=
  match rows with
  | [] => st
  | row :: rest => range_Rows rest (iteration st row)
  end.

(** ** The notions of the specification, in terms of what the outside
    answers *)

(** The cells the loop body reads (lines 138-139). *)
Definition entry_word (row : Row) : string := Cell_String (Cells row !!! 0%nat).
Definition entry_gloss (row : Row) : string := Cell_String (Cells row !!! 1%nat).

(** The state in which the lookup for [word] starts when the iteration
    starts in [st], and the state in which its audio stage starts. *)
Definition at_lookup (st : State) (word : string) : State :=
  snd (announce word st).
Definition at_audio (st : State) (word : string) : State :=
  record_event (EvGet (url word)) (at_lookup st word).

(** The dictionary service answered, the body was read to its end and
    decoded to [result]. *)
Inductive Translated (st : State) (word : string) (result : DicResult) : Prop :=
| translated resp :
    net_Get ext st (url word) = inl resp ->
    failure (Body resp) = None ->
    json_Unmarshal ext (data (Body resp)) = inl result ->
    Translated st word result.

(** The three ways the lookup fails (lines 151, 158, 165). *)
Inductive TranslationFails (st : State) (word : string) : Prop :=
| fetch_fails err :
    net_Get ext st (url word) = inr err ->
    TranslationFails st word
| read_fails resp err :
    net_Get ext st (url word) = inl resp ->
    failure (Body resp) = Some err ->
    TranslationFails st word
| parse_fails resp err :
    net_Get ext st (url word) = inl resp ->
    failure (Body resp) = None ->
    json_Unmarshal ext (data (Body resp)) = inr err ->
    TranslationFails st word.

(** [os.Stat] on the word's path says ENOENT / says anything else. *)
Definition CacheMiss (st : State) (word : string) : Prop :=
  os_IsNotExist (stat_error st (audioPath word)) = true.
Definition CacheHit (st : State) (word : string) : Prop :=
  os_IsNotExist (stat_error st (audioPath word)) = false.

(** The request of lines 194-210 was built. *)
Inductive Prepared (word : string) (req : Request) : Prop :=
| prepared reqBody req0 :
    json_Marshal ext (elevenLabsReq word) = inl reqBody ->
    http_NewRequest "POST" (Sprintf "%s/%s" [elevenLabsBaseURL; voiceID]) reqBody = inl req0 ->
    req = set_headers req0 ->
    Prepared word req.

(** The states inside the synthesis: after the request went out, and
    after the file was created. *)
Definition after_Do (st : State) (req : Request) : State :=
  record_event (EvDo req) st.
Definition after_Create (st : State) (word : string) (req : Request) : State :=
  write_file (audioPath word) "" (after_Do st req).

(** The ways the synthesis fails (lines 195, 203, 215, 222, 231, 239). *)
Inductive SynthesisFails (st : State) (word : string) : Prop :=
| marshal_fails err :
    json_Marshal ext (elevenLabsReq word) = inr err ->
    SynthesisFails st word
| new_request_fails reqBody err :
    json_Marshal ext (elevenLabsReq word) = inl reqBody ->
    http_NewRequest "POST" (Sprintf "%s/%s" [elevenLabsBaseURL; voiceID]) reqBody = inr err ->
    SynthesisFails st word
| do_fails req err :
    Prepared word req ->
    net_Do ext st req = inr err ->
    SynthesisFails st word
| status_fails req resp :
    Prepared word req ->
    net_Do ext st req = inl resp ->
    StatusCode resp ≠ StatusOK ->
    SynthesisFails st word
| create_fails req resp err :
    Prepared word req ->
    net_Do ext st req = inl resp ->
    StatusCode resp = StatusOK ->
    create_fault ext (after_Do st req) (audioPath word) = Some err ->
    SynthesisFails st word
| write_fails req resp n err :
    Prepared word req ->
    net_Do ext st req = inl resp ->
    StatusCode resp = StatusOK ->
    create_fault ext (after_Do st req) (audioPath word) = None ->
    write_fault ext (after_Create st word req) (audioPath word) = Some (n, err) ->
    SynthesisFails st word
| body_fails req resp err :
    Prepared word req ->
    net_Do ext st req = inl resp ->
    StatusCode resp = StatusOK ->
    create_fault ext (after_Do st req) (audioPath word) = None ->
    write_fault ext (after_Create st word req) (audioPath word) = None ->
    failure (Body resp) = Some err ->
    SynthesisFails st word.

(** The synthesis went through: the clip was fetched and saved whole. *)
Inductive Synthesized (st : State) (word : string) : Prop :=
| synthesized req resp :
    Prepared word req ->
    net_Do ext st req = inl resp ->
    StatusCode resp = StatusOK ->
    create_fault ext (after_Do st req) (audioPath word) = None ->
    write_fault ext (after_Create st word req) (audioPath word) = None ->
    failure (Body resp) = None ->
    Synthesized st word.

(** The audio stage lets the row through. *)
Definition AudioReady (st : State) (word : string) : Prop :=
  CacheHit st word ∨ (CacheMiss st word ∧ Synthesized st word).

(** The failures of a row's two stages, from the iteration's start. *)
Definition translation_fails (st : State) (row : Row) : Prop :=
  TranslationFails (at_lookup st (entry_word row)) (entry_word row).
Definition synthesis_fails (st : State) (row : Row) : Prop :=
  (∃ result, Translated (at_lookup st (entry_word row)) (entry_word row) result) ∧
  CacheMiss (at_audio st (entry_word row)) (entry_word row) ∧
  SynthesisFails (at_audio st (entry_word row)) (entry_word row).

(** The row clears both stages, with the decoded answer [result]. *)
Definition Processed (st : State) (row : Row) (result : DicResult) : Prop :=
  (2 ≤ length (Cells row))%nat ∧
  Translated (at_lookup st (entry_word row)) (entry_word row) result ∧
  AudioReady (at_audio st (entry_word row)) (entry_word row).

(** The row yields no record. *)
Definition Skipped (st : State) (row : Row) : Prop :=
  (length (Cells row) < 2)%nat ∨
  ((2 ≤ length (Cells row))%nat ∧ (translation_fails st row ∨ synthesis_fails st row)).

(** The record of line 257. *)
Definition output_row (row : Row) (result : DicResult) : list string :=
  [entry_word row; entry_gloss row; soundField (entry_word row); russian result].

(** The records a run over [rows] from [st] is to hand over: those of
    the processed rows, in the rows' order. *)
Inductive Run : State -> list Row -> list (list string) -> Prop :=
| Run_nil st : Run st [] []
| Run_emit st row rest out result :
    Processed st row result ->
    Run (iteration st row) rest out ->
    Run st (row :: rest) (output_row row result :: out)
| Run_skip st row rest out :
    Skipped st row ->
    Run (iteration st row) rest out ->
    Run st (row :: rest) out.

(** ** Further notions: the rows the loop takes up, the request it
    sends, a copy that breaks off *)

(** The test of line 133 passed. *)
Definition eligible (row : Row) : Prop := (2 ≤ length (Cells row))%nat.

#[global] Instance eligible_dec row : Decision (eligible row).
Proof. unfold eligible. apply _. Defined.

(** The request of lines 202-210 around the body [reqBody], written
    out. *)
Definition speech_request (reqBody : string) : Request :=
  {| Method := "POST";
     URL := "https://api.elevenlabs.io/v1/text-to-speech/21m00Tcm4TlvDq8ikWAM";
     Header := <["xi-api-key" := elevenLabsAPIKey]>
                 (<["Content-Type" := "application/json"]> ∅);
     Payload := reqBody |}.

(** [io.Copy] into the created file fails, having written [content]:
    a write fails after [n] bytes, or the body breaks off. *)
Inductive CopyFails (st : State) (word : string) (req : Request) (resp : Response)
  (content : string) : Prop :=
| copy_write_fails n err :
    write_fault ext (after_Create st word req) (audioPath word) = Some (n, err) ->
    content = substring 0 n (data (Body resp)) ->
    CopyFails st word req resp content
| copy_body_fails err :
    write_fault ext (after_Create st word req) (audioPath word) = None ->
    failure (Body resp) = Some err ->
    content = data (Body resp) ->
    CopyFails st word req resp content.

(** ** Frame lemmas for the effects *)

Lemma emitted_record_event e st :
  emitted (record_event e st) = emitted st ++ omap written [e].
Proof. exact (omap_app written (trace st) [e]). Qed.

Lemma synthesis_requests_record_event e st :
  synthesis_requests (record_event e st) = synthesis_requests st ++ omap sent_Do [e].
Proof. exact (omap_app sent_Do (trace st) [e]). Qed.

Lemma translation_requests_record_event e st :
  translation_requests (record_event e st) = translation_requests st ++ omap sent_Get [e].
Proof. exact (omap_app sent_Get (trace st) [e]). Qed.

Lemma emitted_write_file name content st :
  emitted (write_file name content st) = emitted st.
Proof. reflexivity. Qed.

Lemma synthesis_requests_write_file name content st :
  synthesis_requests (write_file name content st) = synthesis_requests st.
Proof. reflexivity. Qed.

Lemma translation_requests_write_file name content st :
  translation_requests (write_file name content st) = translation_requests st.
Proof. reflexivity. Qed.

Ltac observe :=
  repeat first
    [ rewrite emitted_record_event
    | rewrite synthesis_requests_record_event
    | rewrite translation_requests_record_event
    | rewrite emitted_write_file
    | rewrite synthesis_requests_write_file
    | rewrite translation_requests_write_file ];
  simpl; rewrite ?app_nil_r.

Ltac run_step :=
  repeat match goal with
         | |- context [match ?x with _ => _ end] =>
             lazymatch x with
             | context [match _ with _ => _ end] => fail
             | _ => destruct x eqn:?; simpl
             end
         end.

Lemma at_lookup_frame st word :
  fs (at_lookup st word) = fs st ∧
  processedWords (at_lookup st word) = processedWords st ∧
  emitted (at_lookup st word) = emitted st ∧
  synthesis_requests (at_lookup st word) = synthesis_requests st ∧
  translation_requests (at_lookup st word) = translation_requests st.
Proof. unfold at_lookup, announce, bind; simpl. observe. auto. Qed.

Lemma at_audio_frame st word :
  fs (at_audio st word) = fs st ∧
  processedWords (at_audio st word) = processedWords st ∧
  emitted (at_audio st word) = emitted st ∧
  synthesis_requests (at_audio st word) = synthesis_requests st ∧
  translation_requests (at_audio st word) = translation_requests st ++ [url word].
Proof.
  destruct (at_lookup_frame st word) as (Hfs & Hpw & Hem & Hsy & Htr).
  unfold at_audio. observe. rewrite Hem, Hsy, Htr. auto.
Qed.

(** ** The dictionary lookup *)

Lemma translation_stage_ok st word result :
  Translated st word result ->
  translation_stage word st = (Next (russian result), record_event (EvGet (url word)) st).
Proof.
  intros [resp Hget Hbody Hjson].
  unfold translation_stage, bind, http_Get, io_ReadAll.
  rewrite Hget, Hbody, Hjson. reflexivity.
Qed.

Lemma translation_stage_fails st word :
  TranslationFails st word -> fst (translation_stage word st) = Continue.
Proof.
  unfold translation_stage, bind, http_Get, io_ReadAll.
  intros [err Hget | resp err Hget Hbody | resp err Hget Hbody Hjson].
  - rewrite Hget. reflexivity.
  - rewrite Hget, Hbody. reflexivity.
  - rewrite Hget, Hbody, Hjson. reflexivity.
Qed.

Lemma translation_total st word :
  TranslationFails st word ∨ ∃ result, Translated st word result.
Proof.
  destruct (net_Get ext st (url word)) as [resp | err] eqn:Hget.
  - destruct (failure (Body resp)) as [err |] eqn:Hbody.
    + left. eapply read_fails; eauto.
    + destruct (json_Unmarshal ext (data (Body resp))) as [result | err] eqn:Hjson.
      * right. exists result. econstructor; eauto.
      * left. eapply parse_fails; eauto.
  - left. eapply fetch_fails; eauto.
Qed.

Lemma translation_exclusive st word result :
  TranslationFails st word -> Translated st word result -> False.
Proof.
  intros Hf [resp Hget Hbody Hjson].
  destruct Hf as [err Hget' | resp' err Hget' Hbody' | resp' err Hget' Hbody' Hjson'];
    congruence.
Qed.

Lemma Translated_functional st word r1 r2 :
  Translated st word r1 -> Translated st word r2 -> r1 = r2.
Proof. intros [? ? ? ?] [? ? ? ?]. congruence. Qed.

Lemma translation_stage_frame word st :
  let st' := snd (translation_stage word st) in
  fs st' = fs st ∧ processedWords st' = processedWords st ∧
  emitted st' = emitted st ∧
  synthesis_requests st' = synthesis_requests st ∧
  translation_requests st' = translation_requests st ++ [url word].
Proof.
  unfold translation_stage, bind, http_Get, io_ReadAll; simpl.
  run_step; simpl; observe; auto.
Qed.

(** ** The audio stage *)

Lemma present_CacheHit st word content :
  fs st !! audioPath word = Some content -> CacheHit st word.
Proof.
  intros Hfile. unfold CacheHit, stat_error. rewrite Hfile.
  destruct (stat_fault ext st (audioPath word)); reflexivity.
Qed.

Lemma CacheHit_or_Miss st word : CacheHit st word ∨ CacheMiss st word.
Proof.
  unfold CacheHit, CacheMiss.
  destruct (os_IsNotExist (stat_error st (audioPath word))); auto.
Qed.

Lemma CacheHit_not_Miss st word : CacheHit st word -> CacheMiss st word -> False.
Proof. unfold CacheHit, CacheMiss. congruence. Qed.

Lemma Prepared_functional word r1 r2 :
  Prepared word r1 -> Prepared word r2 -> r1 = r2.
Proof. intros [? ? ? ? ?] [? ? ? ? ?]. congruence. Qed.

(** Lines 247-250: the stage on a path [os.Stat] does not report as
    missing. *)
Lemma audio_stage_hit st word :
  CacheHit st word ->
  audio_stage word st =
    (Next tt,
     record_event (EvPrint "Current progress: %d/%d" [AInt (processedWords st); AInt totalWords])
       (record_event (EvLog "\r\033[2KAudio file for %s already exists, skipping generation" [AStr word]) st)).
Proof.
  unfold CacheHit. intros Hhit.
  unfold audio_stage, bind, os_Stat. rewrite Hhit. reflexivity.
Qed.

Lemma audio_stage_fails st word :
  CacheMiss st word -> SynthesisFails st word ->
  fst (audio_stage word st) = Continue.
Proof.
  unfold CacheMiss. intros Hmiss Hfail.
  unfold audio_stage, bind, os_Stat. rewrite Hmiss.
  destruct Hfail as
    [ err Hm | reqBody err Hm Hn
    | req err [reqBody req0 Hm Hn ->] Hdo
    | req resp [reqBody req0 Hm Hn ->] Hdo Hst
    | req resp err [reqBody req0 Hm Hn ->] Hdo Hst Hcr
    | req resp n err [reqBody req0 Hm Hn ->] Hdo Hst Hcr Hwr
    | req resp err [reqBody req0 Hm Hn ->] Hdo Hst Hcr Hwr Hbody ];
    rewrite Hm; try rewrite Hn; try reflexivity;
    unfold client_Do; rewrite Hdo; try reflexivity.
  - rewrite bool_decide_eq_true_2 by done. reflexivity.
  - rewrite bool_decide_eq_false_2 by (intros ?; done).
    unfold os_Create. unfold after_Do in Hcr. rewrite Hcr. reflexivity.
  - rewrite bool_decide_eq_false_2 by (intros ?; done).
    unfold os_Create. unfold after_Do in Hcr. rewrite Hcr.
    unfold io_Copy. unfold after_Create, after_Do in Hwr. rewrite Hwr. reflexivity.
  - rewrite bool_decide_eq_false_2 by (intros ?; done).
    unfold os_Create. unfold after_Do in Hcr. rewrite Hcr.
    unfold io_Copy. unfold after_Create, after_Do in Hwr. rewrite Hwr, Hbody. reflexivity.
Qed.

Lemma synthesis_total st word :
  SynthesisFails st word ∨ Synthesized st word.
Proof.
  destruct (json_Marshal ext (elevenLabsReq word)) as [reqBody | err] eqn:Hm;
    [| left; eapply marshal_fails; eauto].
  destruct (http_NewRequest "POST" (Sprintf "%s/%s" [elevenLabsBaseURL; voiceID]) reqBody)
    as [req0 | err] eqn:Hn; [| left; eapply new_request_fails; eauto].
  assert (Hprep : Prepared word (set_headers req0)) by (econstructor; eauto).
  destruct (net_Do ext st (set_headers req0)) as [resp | err] eqn:Hdo;
    [| left; eapply do_fails; eauto].
  destruct (decide (StatusCode resp = StatusOK)) as [Hst | Hst];
    [| left; eapply status_fails; eauto].
  destruct (create_fault ext (after_Do st (set_headers req0)) (audioPath word))
    as [err |] eqn:Hcr; [left; eapply create_fails; eauto |].
  destruct (write_fault ext (after_Create st word (set_headers req0)) (audioPath word))
    as [[n err] |] eqn:Hwr; [left; eapply write_fails; eauto |].
  destruct (failure (Body resp)) as [err |] eqn:Hbody;
    [left; eapply body_fails; eauto |].
  right. econstructor; eauto.
Qed.

Lemma synthesis_exclusive st word :
  SynthesisFails st word -> Synthesized st word -> False.
Proof.
  intros Hfail [req resp Hprep Hdo Hst Hcr Hwr Hbody].
  destruct Hfail as
    [ err Hm | reqBody err Hm Hn
    | req' err Hprep' Hdo'
    | req' resp' Hprep' Hdo' Hst'
    | req' resp' err Hprep' Hdo' Hst' Hcr'
    | req' resp' n err Hprep' Hdo' Hst' Hcr' Hwr'
    | req' resp' err Hprep' Hdo' Hst' Hcr' Hwr' Hbody' ];
    try (destruct Hprep as [? ? ? ? ?]; congruence);
    pose proof (Prepared_functional _ _ _ Hprep Hprep') as <-;
    congruence.
Qed.

(** Lines 182-246 when everything answers: one request, and the clip is
    on disk under the word's path. *)
Lemma audio_stage_synthesized st word :
  CacheMiss st word -> Synthesized st word ->
  ∃ req resp,
    Prepared word req ∧ net_Do ext st req = inl resp ∧
    fst (audio_stage word st) = Next tt ∧
    fs (snd (audio_stage word st)) = <[audioPath word := data (Body resp)]> (<[audioPath word := ""]> (fs st)) ∧
    synthesis_requests (snd (audio_stage word st)) = synthesis_requests st ++ [req].
Proof.
  unfold CacheMiss. intros Hmiss [req resp Hprep Hdo Hst Hcr Hwr Hbody].
  exists req, resp. split; [assumption |]. split; [assumption |].
  destruct Hprep as [reqBody req0 Hm Hn ->].
  unfold audio_stage, bind, os_Stat. rewrite Hmiss, Hm, Hn.
  unfold client_Do. rewrite Hdo.
  rewrite bool_decide_eq_false_2 by (intros ?; done).
  unfold os_Create. unfold after_Do in Hcr. rewrite Hcr.
  unfold io_Copy. unfold after_Create, after_Do in Hwr. rewrite Hwr, Hbody.
  simpl. observe. auto.
Qed.

Lemma audio_stage_ready st word :
  AudioReady st word -> fst (audio_stage word st) = Next tt.
Proof.
  intros [Hhit | [Hmiss Hsyn]].
  - rewrite audio_stage_hit by assumption. reflexivity.
  - destruct (audio_stage_synthesized st word Hmiss Hsyn) as (? & ? & _ & _ & H & _).
    exact H.
Qed.

Lemma audio_stage_Next st word :
  fst (audio_stage word st) = Next tt -> AudioReady st word.
Proof.
  intros Hnext. destruct (CacheHit_or_Miss st word) as [Hhit | Hmiss].
  - left; assumption.
  - destruct (synthesis_total st word) as [Hfail | Hsyn].
    + rewrite (audio_stage_fails st word Hmiss Hfail) in Hnext. discriminate.
    + right; auto.
Qed.

(** The stage writes no record, sends nothing to the dictionary, leaves
    the counter and every file but the word's own alone, and removes no
    file. *)
Lemma audio_stage_frame st word :
  let st' := snd (audio_stage word st) in
  processedWords st' = processedWords st ∧
  emitted st' = emitted st ∧
  translation_requests st' = translation_requests st ∧
  (∀ p, p ≠ audioPath word -> fs st' !! p = fs st !! p) ∧
  (∀ p, is_Some (fs st !! p) -> is_Some (fs st' !! p)).
Proof.
  assert (Hmono : ∀ (m : gmap string string) k v p,
             is_Some (m !! p) -> is_Some (<[k := v]> m !! p)).
  { intros m k v p Hp. destruct (decide (k = p)) as [-> | Hne].
    - rewrite lookup_insert_eq. eauto.
    - rewrite lookup_insert_ne by assumption. assumption. }
  unfold audio_stage, bind, os_Stat, client_Do, os_Create, io_Copy, io_ReadAll,
    log_Printf, print_progress, fmt_Printf.
  simpl.
  run_step; simpl; observe;
    repeat split; auto; intros;
    rewrite ?lookup_insert_ne by auto; auto.
Qed.

(** ** The output stage *)

Lemma output_stage_spec word gloss tr st :
  let st' := snd (output_stage word gloss tr st) in
  emitted st' = emitted st ++ [[word; gloss; soundField word; tr]] ∧
  fs st' = fs st ∧
  processedWords st' = (processedWords st + 1)%Z ∧
  synthesis_requests st' = synthesis_requests st ∧
  translation_requests st' = translation_requests st.
Proof.
  unfold output_stage, bind, csvWriter_Write, incr_processedWords.
  destruct (csv_fault ext st [word; gloss; soundField word; tr]) as [err |];
    simpl; unfold emitted, synthesis_requests, translation_requests; simpl;
    rewrite !omap_app; simpl; rewrite ?app_nil_r; auto.
Qed.

(** ** One iteration *)

Lemma iteration_short st row :
  (length (Cells row) < 2)%nat -> iteration st row = st.
Proof.
  intros Hlen. unfold iteration, loop_body.
  rewrite bool_decide_eq_true_2 by assumption. reflexivity.
Qed.

Lemma loop_body_long st row :
  (2 ≤ length (Cells row))%nat ->
  loop_body row st =
    bind (translation_stage (entry_word row))
      (fun tr => bind (audio_stage (entry_word row))
         (fun _ => output_stage (entry_word row) (entry_gloss row) tr))
      (at_lookup st (entry_word row)).
Proof.
  intros Hlen. unfold loop_body.
  rewrite bool_decide_eq_false_2 by lia. reflexivity.
Qed.

Lemma iteration_translation_fails st row :
  (2 ≤ length (Cells row))%nat -> translation_fails st row ->
  iteration st row = snd (translation_stage (entry_word row) (at_lookup st (entry_word row))).
Proof.
  intros Hlen Hfail. unfold iteration. rewrite loop_body_long by assumption.
  apply translation_stage_fails in Hfail. unfold bind at 1.
  destruct (translation_stage (entry_word row) (at_lookup st (entry_word row))) as [[tr |] st1];
    simpl in *; [discriminate | reflexivity].
Qed.

Lemma iteration_translated st row result :
  (2 ≤ length (Cells row))%nat ->
  Translated (at_lookup st (entry_word row)) (entry_word row) result ->
  loop_body row st =
    bind (audio_stage (entry_word row))
      (fun _ => output_stage (entry_word row) (entry_gloss row) (russian result))
      (at_audio st (entry_word row)).
Proof.
  intros Hlen Htr. rewrite loop_body_long by assumption.
  unfold bind at 1. rewrite (translation_stage_ok _ _ _ Htr). reflexivity.
Qed.

Lemma iteration_synthesis_fails st row :
  (2 ≤ length (Cells row))%nat -> synthesis_fails st row ->
  iteration st row = snd (audio_stage (entry_word row) (at_audio st (entry_word row))).
Proof.
  intros Hlen ([result Htr] & Hmiss & Hfail). unfold iteration.
  rewrite (iteration_translated st row result) by assumption.
  pose proof (audio_stage_fails _ _ Hmiss Hfail) as Hc. unfold bind.
  destruct (audio_stage (entry_word row) (at_audio st (entry_word row))) as [[[] |] st2];
    simpl in *; [discriminate | reflexivity].
Qed.

Lemma iteration_processed st row result :
  Processed st row result ->
  iteration st row =
    snd (output_stage (entry_word row) (entry_gloss row) (russian result)
           (snd (audio_stage (entry_word row) (at_audio st (entry_word row))))).
Proof.
  intros (Hlen & Htr & Hready). unfold iteration.
  rewrite (iteration_translated st row result) by assumption.
  pose proof (audio_stage_ready _ _ Hready) as Hn. unfold bind.
  destruct (audio_stage (entry_word row) (at_audio st (entry_word row))) as [[[] |] st2];
    simpl in *; [reflexivity | discriminate].
Qed.

(** Every row is either skipped or processed, never both. *)
Lemma Skipped_or_Processed st row :
  Skipped st row ∨ ∃ result, Processed st row result.
Proof.
  destruct (decide (length (Cells row) < 2)%nat) as [Hlen | Hlen]; [left; left; assumption |].
  assert (Hlen' : (2 ≤ length (Cells row))%nat) by lia.
  destruct (translation_total (at_lookup st (entry_word row)) (entry_word row))
    as [Hfail | [result Htr]].
  { left; right; split; [assumption | left; assumption]. }
  destruct (CacheHit_or_Miss (at_audio st (entry_word row)) (entry_word row)) as [Hhit | Hmiss].
  { right. exists result. repeat split; auto. left; assumption. }
  destruct (synthesis_total (at_audio st (entry_word row)) (entry_word row)) as [Hsf | Hsyn].
  - left; right; split; [assumption | right]. repeat split; eauto.
  - right. exists result. repeat split; auto. right; auto.
Qed.

Lemma Skipped_not_Processed st row result :
  Skipped st row -> Processed st row result -> False.
Proof.
  intros Hskip (Hlen & Htr & Hready).
  destruct Hskip as [Hshort | (_ & [Hfail | (_ & Hmiss & Hsf)])].
  - lia.
  - exact (translation_exclusive _ _ _ Hfail Htr).
  - destruct Hready as [Hhit | [_ Hsyn]].
    + exact (CacheHit_not_Miss _ _ Hhit Hmiss).
    + exact (synthesis_exclusive _ _ Hsf Hsyn).
Qed.

(** What a skipped row leaves behind: no record, the counter as it was. *)
Lemma iteration_skipped st row :
  Skipped st row ->
  emitted (iteration st row) = emitted st ∧
  processedWords (iteration st row) = processedWords st.
Proof.
  intros [Hshort | (Hlen & [Hfail | Hfail])].
  - rewrite iteration_short by assumption. auto.
  - rewrite iteration_translation_fails by assumption.
    destruct (translation_stage_frame (entry_word row) (at_lookup st (entry_word row)))
      as (_ & Hpw & Hem & _).
    destruct (at_lookup_frame st (entry_word row)) as (_ & Hpw' & Hem' & _).
    simpl in *. split; congruence.
  - rewrite iteration_synthesis_fails by assumption.
    destruct (audio_stage_frame (at_audio st (entry_word row)) (entry_word row))
      as (Hpw & Hem & _).
    destruct (at_audio_frame st (entry_word row)) as (_ & Hpw' & Hem' & _).
    simpl in *. split; congruence.
Qed.

(** What a processed row leaves behind: its record, last. *)
Lemma iteration_emits st row result :
  Processed st row result ->
  emitted (iteration st row) = emitted st ++ [output_row row result] ∧
  processedWords (iteration st row) = (processedWords st + 1)%Z.
Proof.
  intros Hproc. rewrite (iteration_processed st row result Hproc).
  match goal with |- context [output_stage ?w ?g ?t ?s] =>
    destruct (output_stage_spec w g t s) as (Hem & _ & Hpw & _) end.
  destruct (audio_stage_frame (at_audio st (entry_word row)) (entry_word row))
    as (Hpw1 & Hem1 & _).
  destruct (at_audio_frame st (entry_word row)) as (_ & Hpw2 & Hem2 & _).
  cbv zeta in *. unfold output_row. split; congruence.
Qed.

(** Files: an iteration removes none and touches only the row's own. *)
Lemma iteration_fs st row :
  (∀ p, is_Some (fs st !! p) -> is_Some (fs (iteration st row) !! p)) ∧
  (∀ p, p ≠ audioPath (entry_word row) -> fs (iteration st row) !! p = fs st !! p).
Proof.
  destruct (at_lookup_frame st (entry_word row)) as (Hfs1 & _).
  destruct (at_audio_frame st (entry_word row)) as (Hfs2 & _).
  destruct (audio_stage_frame (at_audio st (entry_word row)) (entry_word row))
    as (_ & _ & _ & Hne & Hmono). cbv zeta in *.
  rewrite Hfs2 in Hne, Hmono.
  destruct (Skipped_or_Processed st row) as [[Hshort | (Hlen & [Hfail | Hfail])] | [result Hproc]].
  - rewrite iteration_short by assumption. auto.
  - rewrite iteration_translation_fails by assumption.
    destruct (translation_stage_frame (entry_word row) (at_lookup st (entry_word row)))
      as (Hfs & _). cbv zeta in Hfs. rewrite Hfs, Hfs1. auto.
  - rewrite iteration_synthesis_fails by assumption. auto.
  - rewrite (iteration_processed st row result Hproc).
    match goal with |- context [output_stage ?w ?g ?t ?s] =>
      destruct (output_stage_spec w g t s) as (_ & Hfs & _) end.
    cbv zeta in Hfs. rewrite Hfs. auto.
Qed.

(** ** The whole loop *)

Lemma range_Rows_fs_mono rows st p :
  is_Some (fs st !! p) -> is_Some (fs (range_Rows rows st) !! p).
Proof.
  revert st. induction rows as [| row rows IH]; intros st Hp; simpl; [assumption |].
  apply IH. apply iteration_fs. assumption.
Qed.

Lemma Run_total rows : ∀ st, ∃ out, Run st rows out.
Proof.
  induction rows as [| row rows IH]; intros st.
  - exists []. constructor.
  - destruct (IH (iteration st row)) as [out Hout].
    destruct (Skipped_or_Processed st row) as [Hskip | [result Hproc]].
    + exists out. apply Run_skip; assumption.
    + exists (output_row row result :: out). apply Run_emit; assumption.
Qed.

Lemma Run_emitted st rows out :
  Run st rows out -> emitted (range_Rows rows st) = emitted st ++ out.
Proof.
  induction 1 as [st | st row rest out result Hproc _ IH | st row rest out Hskip _ IH]; simpl.
  - rewrite app_nil_r. reflexivity.
  - rewrite IH. destruct (iteration_emits st row result Hproc) as [-> _].
    rewrite <- app_assoc. reflexivity.
  - rewrite IH. destruct (iteration_skipped st row Hskip) as [-> _]. reflexivity.
Qed.

Lemma Run_functional st rows out1 out2 :
  Run st rows out1 -> Run st rows out2 -> out1 = out2.
Proof.
  intros H1. revert out2.
  induction H1 as [st | st row rest out result Hproc _ IH | st row rest out Hskip _ IH];
    intros out2 H2; inversion H2; subst; auto.
  - match goal with
    | Hp : Processed st row ?r |- _ =>
        destruct Hproc as (_ & Ht1 & _); destruct Hp as (_ & Ht2 & _);
        rewrite (Translated_functional _ _ _ _ Ht1 Ht2)
    end.
    f_equal. auto.
  - exfalso. eapply Skipped_not_Processed; eauto.
  - exfalso. eapply Skipped_not_Processed; eauto.
Qed.

Lemma Run_sublist st rows out :
  Run st rows out ->
  ∃ kept : list (Row * DicResult),
    kept.*1 `sublist_of` rows ∧ out = (fun rr => output_row rr.1 rr.2) <$> kept.
Proof.
  induction 1 as [st | st row rest out result Hproc _ (kept & Hsub & ->)
                 | st row rest out Hskip _ (kept & Hsub & ->)].
  - exists []. split; [constructor | reflexivity].
  - exists ((row, result) :: kept). split; [apply sublist_skip; assumption | reflexivity].
  - exists kept. split; [apply sublist_cons; assumption | reflexivity].
Qed.

(** Once the word's file is there, the row sends nothing to the speech
    service. *)
Lemma iteration_no_synthesis st row :
  is_Some (fs st !! audioPath (entry_word row)) ->
  synthesis_requests (iteration st row) = synthesis_requests st.
Proof.
  intros [content Hfile].
  destruct (at_lookup_frame st (entry_word row)) as (Hfs1 & _ & _ & Hs1 & _).
  destruct (at_audio_frame st (entry_word row)) as (Hfs2 & _ & _ & Hs2 & _).
  assert (Hhit : CacheHit (at_audio st (entry_word row)) (entry_word row)).
  { apply (present_CacheHit _ _ content). rewrite Hfs2. assumption. }
  destruct (Skipped_or_Processed st row) as [[Hshort | (Hlen & [Hfail | Hfail])] | [result Hproc]].
  - rewrite iteration_short by assumption. reflexivity.
  - rewrite iteration_translation_fails by assumption.
    destruct (translation_stage_frame (entry_word row) (at_lookup st (entry_word row)))
      as (_ & _ & _ & Hs & _). cbv zeta in Hs. congruence.
  - destruct Hfail as (_ & Hmiss & _). destruct (CacheHit_not_Miss _ _ Hhit Hmiss).
  - rewrite (iteration_processed st row result Hproc).
    match goal with |- context [output_stage ?w ?g ?t ?s] =>
      destruct (output_stage_spec w g t s) as (_ & _ & _ & Hs & _) end.
    cbv zeta in Hs. rewrite Hs, (audio_stage_hit _ _ Hhit). simpl. observe. assumption.
Qed.

(** ** The sound field *)

Lemma append_assoc (a b c : string) : (a +:+ b) +:+ c = a +:+ (b +:+ c).
Proof.
  induction a as [| x a IH]; [reflexivity |].
  change (String x ((a +:+ b) +:+ c) = String x (a +:+ (b +:+ c))).
  f_equal. exact IH.
Qed.

Lemma soundField_literal word : soundField word = "[sound:" +:+ word +:+ ".mp3]".
Proof.
  change (soundField word) with ("[sound:" +:+ ((word +:+ ".mp3") +:+ "]")).
  rewrite append_assoc. reflexivity.
Qed.

(** ** The first translation *)

Lemma russian_first result d ds t ts :
  Def result = d :: ds -> Tr d = t :: ts -> russian result = Translation_Text t.
Proof. intros Hd Ht. unfold russian. rewrite Hd. simpl. rewrite Ht. reflexivity. Qed.

Lemma russian_no_definition result : Def result = [] -> russian result = "".
Proof. intros Hd. unfold russian. rewrite Hd. reflexivity. Qed.

Lemma russian_no_translation result d ds :
  Def result = d :: ds -> Tr d = [] -> russian result = "".
Proof. intros Hd Ht. unfold russian. rewrite Hd. simpl. rewrite Ht. reflexivity. Qed.

(** ** The properties of the specification *)

(** C1: when the dictionary lookup or the speech synthesis fails for the
    word of a row, no record is written for that row and the counter is
    not advanced; the loop goes on with the rows that follow, so the
    records of the batch from this row on are exactly those of the rows
    after it; and of the files only the one under the word's own path may
    have changed, none has disappeared. *)
Theorem C1_failure_drops_one_row st row rest :
  (2 ≤ length (Cells row))%nat ->
  translation_fails st row ∨ synthesis_fails st row ->
  emitted (iteration st row) = emitted st ∧
  processedWords (iteration st row) = processedWords st ∧
  range_Rows (row :: rest) st = range_Rows rest (iteration st row) ∧
  (∀ out, Run (iteration st row) rest out ->
     emitted (range_Rows (row :: rest) st) = emitted st ++ out) ∧
  (∀ p, p ≠ audioPath (entry_word row) -> fs (iteration st row) !! p = fs st !! p) ∧
  (∀ p, is_Some (fs st !! p) -> is_Some (fs (iteration st row) !! p)).
Proof.
  intros Hlen Hfail.
  assert (Hskip : Skipped st row) by (right; auto).
  destruct (iteration_skipped st row Hskip) as [Hem Hpw].
  destruct (iteration_fs st row) as [Hmono Hne].
  repeat split; auto.
  intros out Hrun. apply Run_emitted. apply Run_skip; assumption.
Qed.

(** C2: in a run started with a file under the word's audio path,
    whatever the file holds, a row with that word sends no request to
    the speech service, wherever in the run the row comes. *)
Theorem C2_cached_word_is_not_synthesized st pre row content :
  fs st !! audioPath (entry_word row) = Some content ->
  synthesis_requests (iteration (range_Rows pre st) row)
  = synthesis_requests (range_Rows pre st).
Proof.
  intros Hfile. apply iteration_no_synthesis.
  apply range_Rows_fs_mono. rewrite Hfile. eauto.
Qed.

(** Towards C3: a response of the dictionary service whose body cannot
    be read to its end or cannot be decoded fails the lookup, and the row
    is skipped: no record, nothing sent to the speech service.  The status
    code of the response is never looked at: a response whose body
    decodes is a successful lookup whatever its status (run in the sample
    world further down). *)
Lemma malformed_body_skips st row resp :
  (2 ≤ length (Cells row))%nat ->
  net_Get ext (at_lookup st (entry_word row)) (url (entry_word row)) = inl resp ->
  (failure (Body resp) ≠ None ∨ (∃ err, json_Unmarshal ext (data (Body resp)) = inr err) ->
     translation_fails st row ∧
     emitted (iteration st row) = emitted st ∧
     synthesis_requests (iteration st row) = synthesis_requests st) ∧
  (∀ result,
     failure (Body resp) = None ->
     json_Unmarshal ext (data (Body resp)) = inl result ->
     translation_stage (entry_word row) (at_lookup st (entry_word row))
     = (Next (russian result), at_audio st (entry_word row))).
Proof.
  intros Hlen Hget. split.
  - intros Hbad.
    assert (Hfail : translation_fails st row).
    { unfold translation_fails.
      destruct (failure (Body resp)) as [err |] eqn:Hbody.
      - eapply read_fails; eauto.
      - destruct Hbad as [Hne | [err Hjson]]; [congruence |].
        eapply parse_fails; eauto. }
    split; [assumption |].
    assert (Hskip : Skipped st row) by (right; auto).
    split; [apply iteration_skipped; assumption |].
    rewrite iteration_translation_fails by assumption.
    destruct (translation_stage_frame (entry_word row) (at_lookup st (entry_word row)))
      as (_ & _ & _ & Hs & _).
    destruct (at_lookup_frame st (entry_word row)) as (_ & _ & _ & Hs' & _).
    cbv zeta in Hs. congruence.
  - intros result Hbody Hjson. apply translation_stage_ok.
    econstructor; eauto.
Qed.

(** C4: when the dictionary's answer decodes to no definition, or to a
    first definition without translations, the translation is the empty
    string, and that is no reason to skip: the row is skipped only if its
    synthesis fails, and when the audio stage lets it through its record
    is written with the empty translation.  The audio stage is the one of
    any word: it runs on the word alone, from the state the lookup left,
    and the iteration ends with it or with the record written after it. *)
Theorem C4_empty_translation_is_emitted st row result :
  (2 ≤ length (Cells row))%nat ->
  Translated (at_lookup st (entry_word row)) (entry_word row) result ->
  Def result = [] ∨ (∃ d ds, Def result = d :: ds ∧ Tr d = []) ->
  russian result = "" ∧
  (Skipped st row -> synthesis_fails st row) ∧
  (AudioReady (at_audio st (entry_word row)) (entry_word row) ->
     emitted (iteration st row)
     = emitted st ++ [[entry_word row; entry_gloss row;
                       "[sound:" +:+ entry_word row +:+ ".mp3]"; ""]]) ∧
  (let after_audio := snd (audio_stage (entry_word row) (at_audio st (entry_word row))) in
   iteration st row = after_audio ∨
   iteration st row = snd (output_stage (entry_word row) (entry_gloss row) "" after_audio)).
Proof.
  intros Hlen Htr Hempty.
  assert (Hr : russian result = "").
  { destruct Hempty as [Hd | (d & ds & Hd & Ht)].
    - apply russian_no_definition; assumption.
    - eapply russian_no_translation; eassumption. }
  assert (Hskip : Skipped st row -> synthesis_fails st row).
  { intros [Hshort | (_ & [Hfail | Hfail])].
    - lia.
    - destruct (translation_exclusive _ _ _ Hfail Htr).
    - assumption. }
  split; [assumption |]. split; [assumption |]. split.
  - intros Hready.
    assert (Hproc : Processed st row result) by (repeat split; assumption).
    destruct (iteration_emits st row result Hproc) as [Hem _].
    rewrite Hem. unfold output_row. rewrite Hr, soundField_literal. reflexivity.
  - cbv zeta.
    destruct (Skipped_or_Processed st row) as [Hs | [result' Hproc]].
    + left. apply iteration_synthesis_fails; auto.
    + right. rewrite (iteration_processed st row result' Hproc).
      destruct Hproc as (_ & Htr' & _).
      rewrite (Translated_functional _ _ _ _ Htr' Htr), Hr. reflexivity.
Qed.

(** Towards C5: the record of a processed row names a file that is
    there, unless [os.Stat] failed on the path with an error other than
    ENOENT (the case of C10, run in the sample world further down). *)
Lemma emitted_row_has_file st row result :
  Processed st row result ->
  stat_fault ext (at_audio st (entry_word row)) (audioPath (entry_word row)) = None ->
  is_Some (fs (iteration st row) !! audioPath (entry_word row)).
Proof.
  intros Hproc Hstat. pose proof Hproc as (Hlen & Htr & Hready).
  rewrite (iteration_processed st row result Hproc).
  match goal with |- context [output_stage ?w ?g ?t ?s] =>
    destruct (output_stage_spec w g t s) as (_ & Hfs & _) end.
  cbv zeta in Hfs. rewrite Hfs.
  destruct Hready as [Hhit | [Hmiss Hsyn]].
  - rewrite (audio_stage_hit _ _ Hhit). simpl.
    unfold CacheHit, stat_error in Hhit. rewrite Hstat in Hhit.
    destruct (fs (at_audio st (entry_word row)) !! audioPath (entry_word row)) eqn:Hfile;
      [eauto | discriminate].
  - destruct (audio_stage_synthesized _ _ Hmiss Hsyn) as (req & resp & _ & _ & _ & Hfs' & _).
    rewrite Hfs', lookup_insert_eq. eauto.
Qed.

(** C6: the records written by a run are those of the processed rows,
    one each, in the order of the rows, and none for a skipped row. *)
Theorem C6_rows_in_input_order rows st :
  ∃ out,
    Run st rows out ∧
    emitted (range_Rows rows st) = emitted st ++ out ∧
    ∃ kept : list (Row * DicResult),
      kept.*1 `sublist_of` rows ∧ out = (fun rr => output_row rr.1 rr.2) <$> kept.
Proof.
  destruct (Run_total rows st) as [out Hrun].
  exists out. split; [assumption |]. split.
  - apply Run_emitted. assumption.
  - eapply Run_sublist. eassumption.
Qed.

(** C7 (as the code has it): the translation in the record of a
    processed row is the text of the first translation of the first
    definition when the answer has a first definition with at least one
    translation, and the empty string when the answer has no definition
    or its first definition has no translation. *)
Theorem C7_first_translation_or_empty st row result :
  Processed st row result ->
  ∃ tr,
    emitted (iteration st row)
    = emitted st ++ [[entry_word row; entry_gloss row; soundField (entry_word row); tr]] ∧
    (∀ d ds t ts, Def result = d :: ds -> Tr d = t :: ts -> tr = Translation_Text t) ∧
    (Def result = [] -> tr = "") ∧
    (∀ d ds, Def result = d :: ds -> Tr d = [] -> tr = "").
Proof.
  intros Hproc. exists (russian result).
  split; [apply (iteration_emits st row result Hproc) |].
  split; [| split].
  - intros d ds t ts. apply russian_first.
  - apply russian_no_definition.
  - intros d ds. apply russian_no_translation.
Qed.

(** C8 (as the code has it): a row is processed exactly when it has at
    least two cells, empty or not.  A row with fewer cells changes
    nothing: no record, no request to either service.  A row with two or
    more cells sends the lookup for its first cell. *)
Theorem C8_rows_with_two_cells_are_processed st row :
  ((length (Cells row) < 2)%nat -> iteration st row = st) ∧
  ((2 ≤ length (Cells row))%nat ->
     translation_requests (iteration st row)
     = translation_requests st ++ [url (entry_word row)]) ∧
  (iteration st row ≠ st ↔ (2 ≤ length (Cells row))%nat).
Proof.
  assert (Hlong : (2 ≤ length (Cells row))%nat ->
            translation_requests (iteration st row)
            = translation_requests st ++ [url (entry_word row)]).
  { intros Hlen.
    destruct (at_audio_frame st (entry_word row)) as (_ & _ & _ & _ & Ht2).
    destruct (at_lookup_frame st (entry_word row)) as (_ & _ & _ & _ & Ht1).
    destruct (audio_stage_frame (at_audio st (entry_word row)) (entry_word row))
      as (_ & _ & Ht3 & _). cbv zeta in Ht3.
    destruct (Skipped_or_Processed st row) as [[Hshort | (_ & [Hfail | Hfail])] | [result Hproc]].
    - lia.
    - rewrite iteration_translation_fails by assumption.
      destruct (translation_stage_frame (entry_word row) (at_lookup st (entry_word row)))
        as (_ & _ & _ & _ & Ht). cbv zeta in Ht. congruence.
    - rewrite iteration_synthesis_fails by assumption. congruence.
    - rewrite (iteration_processed st row result Hproc).
      match goal with |- context [output_stage ?w ?g ?t ?s] =>
        destruct (output_stage_spec w g t s) as (_ & _ & _ & _ & Ht) end.
      cbv zeta in Ht. congruence. }
  split; [apply iteration_short |]. split; [assumption |]. split.
  - intros Hne. destruct (decide (length (Cells row) < 2)%nat) as [Hshort | Hlen]; [| lia].
    destruct Hne. apply iteration_short. assumption.
  - intros Hlen Heq. specialize (Hlong Hlen). rewrite Heq in Hlong.
    apply (f_equal length) in Hlong. rewrite length_app in Hlong. simpl in Hlong. lia.
Qed.

(** C9: the record written for a processed row is the row's first cell,
    its second cell unchanged, the tag [[sound:<word>.mp3]], and the
    translation found by the lookup, in this order. *)
Theorem C9_record_fields st row result :
  Processed st row result ->
  emitted (iteration st row)
  = emitted st ++ [[entry_word row; entry_gloss row;
                    "[sound:" +:+ entry_word row +:+ ".mp3]"; russian result]].
Proof.
  intros Hproc. destruct (iteration_emits st row result Hproc) as [Hem _].
  rewrite Hem. unfold output_row. rewrite soundField_literal. reflexivity.
Qed.

(** C10: when [os.Stat] on the word's path fails with an error other
    than ENOENT, the audio stage does what it does on a file that is
    there: it logs that the file already exists and goes on.  Nothing is
    sent to the speech service, the record is written, and no file is
    created, so a file that was missing is still missing. *)
Theorem C10_stat_error_counts_as_cached st row result msg :
  (2 ≤ length (Cells row))%nat ->
  Translated (at_lookup st (entry_word row)) (entry_word row) result ->
  stat_fault ext (at_audio st (entry_word row)) (audioPath (entry_word row)) = Some msg ->
  audio_stage (entry_word row) (at_audio st (entry_word row))
  = (Next tt,
     record_event (EvPrint "Current progress: %d/%d" [AInt (processedWords st); AInt totalWords])
       (record_event
          (EvLog "\r\033[2KAudio file for %s already exists, skipping generation"
             [AStr (entry_word row)])
          (at_audio st (entry_word row)))) ∧
  synthesis_requests (iteration st row) = synthesis_requests st ∧
  emitted (iteration st row) = emitted st ++ [output_row row result] ∧
  fs (iteration st row) = fs st.
Proof.
  intros Hlen Htr Hstat.
  assert (Hhit : CacheHit (at_audio st (entry_word row)) (entry_word row)).
  { unfold CacheHit, stat_error. rewrite Hstat. reflexivity. }
  assert (Hproc : Processed st row result).
  { repeat split; auto. left; assumption. }
  destruct (at_audio_frame st (entry_word row)) as (Hfs2 & Hpw2 & _ & Hs2 & _).
  split; [rewrite (audio_stage_hit _ _ Hhit), Hpw2; reflexivity |].
  split; [| split].
  - rewrite (iteration_processed st row result Hproc).
    match goal with |- context [output_stage ?w ?g ?t ?s] =>
      destruct (output_stage_spec w g t s) as (_ & _ & _ & Hs & _) end.
    cbv zeta in Hs. rewrite Hs, (audio_stage_hit _ _ Hhit). simpl. observe. assumption.
  - apply (iteration_emits st row result Hproc).
  - rewrite (iteration_processed st row result Hproc).
    match goal with |- context [output_stage ?w ?g ?t ?s] =>
      destruct (output_stage_spec w g t s) as (_ & Hfs & _) end.
    cbv zeta in Hfs. rewrite Hfs, (audio_stage_hit _ _ Hhit). simpl. assumption.
Qed.

(** ** More about the loop: the counter, the requests, the files *)


Lemma Run_processedWords st rows out :
  Run st rows out ->
  processedWords (range_Rows rows st) = (processedWords st + Z.of_nat (length out))%Z.
Proof.
  induction 1 as [st | st row rest out result Hproc _ IH | st row rest out Hskip _ IH]; simpl.
  - lia.
  - rewrite IH. destruct (iteration_emits st row result Hproc) as [_ ->]. lia.
  - rewrite IH. destruct (iteration_skipped st row Hskip) as [_ ->]. reflexivity.
Qed.

(** X1: the counter advances by one for each record handed to the CSV
    writer and by nothing else: after any run it has grown by the number
    of records the run wrote. *)
Theorem counter_counts_records rows st :
  (processedWords (range_Rows rows st) - processedWords st)%Z
  = Z.of_nat (length (emitted (range_Rows rows st)) - length (emitted st)).
Proof.
  destruct (Run_total rows st) as [out Hrun].
  rewrite (Run_processedWords _ _ _ Hrun), (Run_emitted _ _ _ Hrun), length_app. lia.
Qed.



Lemma Prepared_shape word req :
  Prepared word req ->
  ∃ reqBody, json_Marshal ext (elevenLabsReq word) = inl reqBody ∧ req = speech_request reqBody.
Proof.
  intros [reqBody req0 Hm Hn ->]. exists reqBody. split; [assumption |].
  unfold http_NewRequest in Hn.
  destruct (NewRequest_err ext "POST" (Sprintf "%s/%s" [elevenLabsBaseURL; voiceID]));
    [discriminate |].
  injection Hn as <-. reflexivity.
Qed.

Lemma audio_stage_requests st word :
  synthesis_requests (snd (audio_stage word st)) = synthesis_requests st ∨
  (CacheMiss st word ∧
   ∃ req, Prepared word req ∧
     synthesis_requests (snd (audio_stage word st)) = synthesis_requests st ++ [req]).
Proof.
  destruct (CacheHit_or_Miss st word) as [Hhit | Hmiss].
  { left. rewrite (audio_stage_hit _ _ Hhit). simpl. observe. reflexivity. }
  pose proof Hmiss as Hmiss'. unfold CacheMiss in Hmiss'.
  unfold audio_stage, bind, os_Stat. rewrite Hmiss'.
  destruct (json_Marshal ext (elevenLabsReq word)) as [reqBody | err] eqn:Hm;
    [| left; simpl; observe; reflexivity].
  destruct (http_NewRequest "POST" (Sprintf "%s/%s" [elevenLabsBaseURL; voiceID]) reqBody)
    as [req0 | err] eqn:Hn; [| left; simpl; observe; reflexivity].
  right. split; [assumption |]. exists (set_headers req0).
  split; [econstructor; eauto |].
  unfold client_Do, os_Create, io_Copy, io_ReadAll, log_Printf, print_progress, fmt_Printf.
  simpl. run_step; simpl; observe; reflexivity.
Qed.

Lemma iteration_requests st row :
  synthesis_requests (iteration st row) = synthesis_requests st ∨
  (eligible row ∧
   (∃ result, Translated (at_lookup st (entry_word row)) (entry_word row) result) ∧
   CacheMiss (at_audio st (entry_word row)) (entry_word row) ∧
   ∃ req, Prepared (entry_word row) req ∧
     synthesis_requests (iteration st row) = synthesis_requests st ++ [req]).
Proof.
  destruct (at_lookup_frame st (entry_word row)) as (_ & _ & _ & Hs1 & _).
  destruct (at_audio_frame st (entry_word row)) as (_ & _ & _ & Hs2 & _).
  destruct (Skipped_or_Processed st row) as [[Hshort | (Hlen & [Hfail | Hfail])] | [result Hproc]].
  - left. rewrite iteration_short by assumption. reflexivity.
  - left. rewrite iteration_translation_fails by assumption.
    destruct (translation_stage_frame (entry_word row) (at_lookup st (entry_word row)))
      as (_ & _ & _ & Hs & _). cbv zeta in Hs. congruence.
  - rewrite iteration_synthesis_fails by assumption.
    destruct Hfail as (Htr & Hmiss & _).
    destruct (audio_stage_requests (at_audio st (entry_word row)) (entry_word row))
      as [Hsame | (_ & req & Hprep & Hreq)].
    + left. congruence.
    + right. repeat split; auto. exists req. split; [assumption |]. congruence.
  - rewrite (iteration_processed st row result Hproc).
    match goal with |- context [output_stage ?w ?g ?t ?s] =>
      destruct (output_stage_spec w g t s) as (_ & _ & _ & Hs & _) end.
    cbv zeta in Hs. rewrite Hs. destruct Hproc as (Hlen & Htr & _).
    destruct (audio_stage_requests (at_audio st (entry_word row)) (entry_word row))
      as [Hsame | (Hmiss & req & Hprep & Hreq)].
    + left. congruence.
    + right. repeat split; eauto. exists req. split; [assumption |]. congruence.
Qed.

(** X3: whatever a run sends to the speech service is a POST to the one
    voice's URL with the JSON content type and the API key in its
    headers, and its body is the encoding of the request for the first
    cell of one of the rows of two or more cells; and a run sends at
    most one such request per such row. *)
Theorem speech_requests_of_a_run rows st :
  (∀ req, req ∈ synthesis_requests (range_Rows rows st) ->
     req ∈ synthesis_requests st ∨
     ∃ row reqBody,
       row ∈ rows ∧ eligible row ∧
       json_Marshal ext (elevenLabsReq (entry_word row)) = inl reqBody ∧
       req = speech_request reqBody) ∧
  (length (synthesis_requests (range_Rows rows st))
   ≤ length (synthesis_requests st) + length (filter eligible rows))%nat.
Proof.
  revert st. induction rows as [| row rows IH]; intros st; simpl.
  { split; [auto | lia]. }
  destruct (IH (iteration st row)) as [IHshape IHcount].
  destruct (iteration_requests st row) as [Hsame | (Hlen & _ & _ & req0 & Hprep & Hreq)].
  - rewrite Hsame in IHshape, IHcount. split.
    + intros req Hin. destruct (IHshape req Hin) as [Hold | (row' & reqBody & Hin' & Hrest)];
        [left; assumption |].
      right. exists row', reqBody. split; [right; assumption | assumption].
    + pose proof (length_filter eligible rows).
      destruct (decide (eligible row)); [rewrite filter_cons_True by assumption
                                        | rewrite filter_cons_False by assumption];
        simpl; lia.
  - rewrite Hreq in IHshape, IHcount. split.
    + intros req Hin. destruct (IHshape req Hin) as [Hold | (row' & reqBody & Hin' & Hrest)].
      * apply elem_of_app in Hold as [Hold | Hnew]; [left; assumption |].
        apply list_elem_of_singleton in Hnew as ->.
        destruct (Prepared_shape _ _ Hprep) as (reqBody & Hm & ->).
        right. exists row, reqBody. repeat split; auto. left.
      * right. exists row', reqBody. split; [right; assumption | assumption].
    + rewrite filter_cons_True by assumption. rewrite length_app in IHcount.
      simpl in *. lia.
Qed.

(** The file a synthesis saved is there after the iteration. *)
Lemma iteration_saves_clip st row :
  eligible row ->
  (∃ result, Translated (at_lookup st (entry_word row)) (entry_word row) result) ->
  CacheMiss (at_audio st (entry_word row)) (entry_word row) ->
  Synthesized (at_audio st (entry_word row)) (entry_word row) ->
  ∃ req resp,
    Prepared (entry_word row) req ∧
    net_Do ext (at_audio st (entry_word row)) req = inl resp ∧
    fs (iteration st row) !! audioPath (entry_word row) = Some (data (Body resp)).
Proof.
  intros Hlen [result Htr] Hmiss Hsyn.
  assert (Hproc : Processed st row result) by (repeat split; auto; right; auto).
  destruct (audio_stage_synthesized _ _ Hmiss Hsyn) as (req & resp & Hprep & Hdo & _ & Hfs & _).
  exists req, resp. split; [assumption |]. split; [assumption |].
  rewrite (iteration_processed st row result Hproc).
  match goal with |- context [output_stage ?w ?g ?t ?s] =>
    destruct (output_stage_spec w g t s) as (_ & Hfs' & _) end.
  cbv zeta in Hfs'. rewrite Hfs', Hfs. apply lookup_insert_eq.
Qed.

Lemma later_rows_find_the_file st row mid row' :
  is_Some (fs (iteration st row) !! audioPath (entry_word row)) ->
  entry_word row' = entry_word row ->
  synthesis_requests (iteration (range_Rows mid (iteration st row)) row')
  = synthesis_requests (range_Rows mid (iteration st row)).
Proof.
  intros Hfile Hword. apply iteration_no_synthesis. rewrite Hword.
  apply range_Rows_fs_mono. assumption.
Qed.

(** X5: a clip fetched for a row is saved under the word's path with
    the bytes the speech service sent, and no later row of the run with
    the same word asks the speech service again. *)
Theorem synthesized_clip_is_reused st row :
  eligible row ->
  (∃ result, Translated (at_lookup st (entry_word row)) (entry_word row) result) ->
  CacheMiss (at_audio st (entry_word row)) (entry_word row) ->
  Synthesized (at_audio st (entry_word row)) (entry_word row) ->
  (∃ req resp,
     Prepared (entry_word row) req ∧
     net_Do ext (at_audio st (entry_word row)) req = inl resp ∧
     fs (iteration st row) !! audioPath (entry_word row) = Some (data (Body resp))) ∧
  (∀ mid row',
     entry_word row' = entry_word row ->
     synthesis_requests (iteration (range_Rows mid (iteration st row)) row')
     = synthesis_requests (range_Rows mid (iteration st row))).
Proof.
  intros Hlen Htr Hmiss Hsyn.
  pose proof (iteration_saves_clip st row Hlen Htr Hmiss Hsyn) as Hsaved.
  split; [exact Hsaved |].
  intros mid row'. apply later_rows_find_the_file.
  destruct Hsaved as (req & resp & _ & _ & ->). eauto.
Qed.

Lemma audio_stage_copy_fails st word req resp content :
  CacheMiss st word ->
  Prepared word req ->
  net_Do ext st req = inl resp ->
  StatusCode resp = StatusOK ->
  create_fault ext (after_Do st req) (audioPath word) = None ->
  CopyFails st word req resp content ->
  SynthesisFails st word ∧
  fs (snd (audio_stage word st)) !! audioPath word = Some content.
Proof.
  intros Hmiss Hprep Hdo Hst Hcr Hcopy. split.
  { destruct Hcopy as [n err Hwr _ | err Hwr Hbody _].
    - eapply write_fails; eauto.
    - eapply body_fails; eauto. }
  unfold CacheMiss in Hmiss. destruct Hprep as [reqBody req0 Hm Hn ->].
  unfold audio_stage, bind, os_Stat. rewrite Hmiss, Hm, Hn.
  unfold client_Do. rewrite Hdo.
  rewrite bool_decide_eq_false_2 by (intros ?; done).
  unfold os_Create. unfold after_Do in Hcr. rewrite Hcr.
  unfold io_Copy.
  destruct Hcopy as [n err Hwr -> | err Hwr Hbody ->];
    unfold after_Create, after_Do in Hwr; rewrite Hwr; [| rewrite Hbody];
    simpl; apply lookup_insert_eq.
Qed.

(** X6: when the copy of the clip into the created file breaks off (a
    write fails, or the response body ends in an error), the row is
    skipped, but the file stays under the word's path with the bytes
    written so far, and every later row of the run with the same word
    takes it for the word's clip: none of them asks the speech service. *)
Theorem broken_copy_leaves_a_file st row req resp content :
  eligible row ->
  (∃ result, Translated (at_lookup st (entry_word row)) (entry_word row) result) ->
  CacheMiss (at_audio st (entry_word row)) (entry_word row) ->
  Prepared (entry_word row) req ->
  net_Do ext (at_audio st (entry_word row)) req = inl resp ->
  StatusCode resp = StatusOK ->
  create_fault ext (after_Do (at_audio st (entry_word row)) req) (audioPath (entry_word row)) = None ->
  CopyFails (at_audio st (entry_word row)) (entry_word row) req resp content ->
  emitted (iteration st row) = emitted st ∧
  fs (iteration st row) !! audioPath (entry_word row) = Some content ∧
  (∀ mid row',
     entry_word row' = entry_word row ->
     synthesis_requests (iteration (range_Rows mid (iteration st row)) row')
     = synthesis_requests (range_Rows mid (iteration st row))).
Proof.
  intros Hlen Htr Hmiss Hprep Hdo Hst Hcr Hcopy.
  destruct (audio_stage_copy_fails _ _ _ _ _ Hmiss Hprep Hdo Hst Hcr Hcopy) as [Hfail Hfile].
  assert (Hsf : synthesis_fails st row) by (repeat split; assumption).
  assert (Hskip : Skipped st row) by (right; split; [assumption | right; assumption]).
  assert (Hfile' : fs (iteration st row) !! audioPath (entry_word row) = Some content).
  { rewrite iteration_synthesis_fails by assumption. exact Hfile. }
  split; [apply iteration_skipped; assumption |]. split; [exact Hfile' |].
  intros mid row'. apply later_rows_find_the_file. rewrite Hfile'. eauto.
Qed.

Lemma audio_stage_refused st word req :
  CacheMiss st word ->
  Prepared word req ->
  ((∃ err, net_Do ext st req = inr err)
   ∨ (∃ resp, net_Do ext st req = inl resp ∧ StatusCode resp ≠ StatusOK)) ->
  SynthesisFails st word ∧
  fs (snd (audio_stage word st)) = fs st ∧
  synthesis_requests (snd (audio_stage word st)) = synthesis_requests st ++ [req].
Proof.
  intros Hmiss Hprep Hrefused. split.
  { destruct Hrefused as [[err Hdo] | (resp & Hdo & Hst)].
    - eapply do_fails; eauto.
    - eapply status_fails; eauto. }
  unfold CacheMiss in Hmiss. destruct Hprep as [reqBody req0 Hm Hn ->].
  unfold audio_stage, bind, os_Stat. rewrite Hmiss, Hm, Hn.
  unfold client_Do.
  destruct Hrefused as [[err Hdo] | (resp & Hdo & Hst)]; rewrite Hdo.
  - simpl. observe. auto.
  - rewrite bool_decide_eq_true_2 by assumption. simpl. observe. auto.
Qed.

(** X8: when the speech service cannot be reached or answers with a
    status other than 200, the one request has been sent, the row is
    skipped, and no file is created or changed, so the word's clip is as
    missing after the row as before. *)
Theorem refused_synthesis_leaves_no_file st row req :
  eligible row ->
  (∃ result, Translated (at_lookup st (entry_word row)) (entry_word row) result) ->
  CacheMiss (at_audio st (entry_word row)) (entry_word row) ->
  Prepared (entry_word row) req ->
  ((∃ err, net_Do ext (at_audio st (entry_word row)) req = inr err)
   ∨ (∃ resp, net_Do ext (at_audio st (entry_word row)) req = inl resp
              ∧ StatusCode resp ≠ StatusOK)) ->
  emitted (iteration st row) = emitted st ∧
  fs (iteration st row) = fs st ∧
  synthesis_requests (iteration st row) = synthesis_requests st ++ [req].
Proof.
  intros Hlen Htr Hmiss Hprep Hrefused.
  destruct (audio_stage_refused _ _ _ Hmiss Hprep Hrefused) as (Hfail & Hfs & Hreq).
  assert (Hsf : synthesis_fails st row) by (repeat split; assumption).
  assert (Hskip : Skipped st row) by (right; split; [assumption | right; assumption]).
  destruct (at_audio_frame st (entry_word row)) as (Hfs2 & _ & _ & Hs2 & _).
  split; [apply iteration_skipped; assumption |].
  rewrite iteration_synthesis_fails by assumption.
  split; congruence.
Qed.

(** X7: when the CSV writer refuses the record of a processed row, the
    error is logged and that is all: the record counts as handed over,
    the counter is advanced as for any processed row (the progress line
    after the error still shows the old count), and the loop goes on. *)
Theorem refused_record_is_still_counted st row result err :
  Processed st row result ->
  csv_fault ext (snd (audio_stage (entry_word row) (at_audio st (entry_word row))))
    (output_row row result) = Some err ->
  trace (iteration st row)
  = trace (snd (audio_stage (entry_word row) (at_audio st (entry_word row))))
    ++ [EvWrite (output_row row result) (Some err);
        EvLog "\r\033[2KError writing CSV row for %s: %v" [AStr (entry_word row); AErr err];
        EvPrint "Current progress: %d/%d" [AInt (processedWords st); AInt totalWords]] ∧
  processedWords (iteration st row) = (processedWords st + 1)%Z ∧
  emitted (iteration st row) = emitted st ++ [output_row row result].
Proof.
  intros Hproc Hcsv.
  destruct (iteration_emits st row result Hproc) as [Hem Hpw].
  split; [| split; assumption].
  rewrite (iteration_processed st row result Hproc).
  destruct (audio_stage_frame (at_audio st (entry_word row)) (entry_word row)) as (Hpw1 & _).
  destruct (at_audio_frame st (entry_word row)) as (_ & Hpw2 & _).
  cbv zeta in Hpw1.
  unfold output_stage, bind, csvWriter_Write. unfold output_row in Hcsv. rewrite Hcsv.
  simpl. rewrite Hpw1, Hpw2, <- !app_assoc. reflexivity.
Qed.


Lemma length_append (a b : string) :
  String.length (a +:+ b) = (String.length a + String.length b)%nat.
Proof. induction a as [| x a IH]; simpl; [reflexivity | rewrite IH; reflexivity]. Qed.

Lemma append_cancel_r (s a b : string) : a +:+ s = b +:+ s -> a = b.
Proof.
  revert b. induction a as [| x a IH]; intros [| y b] H.
  - reflexivity.
  - apply (f_equal String.length) in H. rewrite !length_append in H. simpl in H. lia.
  - apply (f_equal String.length) in H. rewrite !length_append in H. simpl in H. lia.
  - change (String x (a +:+ s) = String y (b +:+ s)) in H.
    injection H as -> H. f_equal. apply IH. exact H.
Qed.

(** X13: the lookup URL, the file name and the sound tag each determine
    the word: two words get the same one only if they are the same
    word. *)
Theorem words_are_told_apart w1 w2 :
  (url w1 = url w2 -> w1 = w2) ∧
  (audioFilename w1 = audioFilename w2 -> w1 = w2) ∧
  (soundField w1 = soundField w2 -> w1 = w2).
Proof.
  split; [| split].
  - unfold url.
    change (yandexBaseURL +:+ ("?key=" +:+ (yandexAPIKey +:+ ("&lang=" +:+ (lang +:+
              ("&text=" +:+ (w1 +:+ ""))))))
            = yandexBaseURL +:+ ("?key=" +:+ (yandexAPIKey +:+ ("&lang=" +:+ (lang +:+
              ("&text=" +:+ (w2 +:+ "")))))) -> w1 = w2).
    intros H. do 6 apply String.app_inj in H. exact (append_cancel_r _ _ _ H).
  - change (w1 +:+ ".mp3" = w2 +:+ ".mp3" -> w1 = w2). apply append_cancel_r.
  - rewrite !soundField_literal. intros H. apply String.app_inj in H.
    exact (append_cancel_r _ _ _ H).
Qed.

End Pipeline.

(** ** The properties at work in the sample world *)

Local Abbreviation one_row := (iteration Sample.world "YKEY" "EKEY" 2).
Local Abbreviation all_rows := (range_Rows Sample.world "YKEY" "EKEY" 2).
Local Abbreviation processed := (Processed Sample.world "YKEY" "EKEY" 2).

Ltac by_running := vm_compute; try reflexivity; try discriminate.

(** The scenario of the specification: [hello] is looked up, its clip
    fetched and saved, and the record written. *)
Example sample_hello :
  emitted (one_row Sample.start (Sample.entry "hello" "a greeting"))
  = [["hello"; "a greeting"; "[sound:hello.mp3]"; "privet"]] ∧
  fs (one_row Sample.start (Sample.entry "hello" "a greeting")) !! "audio/hello.mp3"
  = Some "ID3".
Proof. split; by_running. Qed.

(** Three rows, the second failing its synthesis: the first and the
    third are written, in this order. *)
Example sample_order :
  emitted (all_rows [Sample.entry "hello" "a greeting"; Sample.entry "mute" "silent";
                     Sample.entry "bare" "naked"] Sample.start)
  = [["hello"; "a greeting"; "[sound:hello.mp3]"; "privet"];
     ["bare"; "naked"; "[sound:bare.mp3]"; ""]].
Proof. by_running. Qed.

Lemma hello_processed :
  processed Sample.start (Sample.entry "hello" "a greeting") Sample.result_hello.
Proof.
  split; [simpl; lia |]. split.
  - econstructor; by_running.
  - right. split; [by_running |].
    econstructor; [econstructor |..]; by_running.
Qed.

Lemma void_translated :
  Translated Sample.world "YKEY" (at_lookup 2 Sample.start "void") "void" Sample.result_zero.
Proof. econstructor; by_running. Qed.

Lemma void_audio_ready :
  AudioReady Sample.world "EKEY" (at_audio "YKEY" 2 Sample.start "void") "void".
Proof.
  right. split; [by_running |].
  econstructor; [econstructor |..]; by_running.
Qed.

Lemma bare_processed :
  processed Sample.start (Sample.entry "bare" "naked") Sample.result_bare.
Proof.
  split; [simpl; lia |]. split.
  - econstructor; by_running.
  - right. split; [by_running |].
    econstructor; [econstructor |..]; by_running.
Qed.

Lemma locked_translated :
  Translated Sample.world "YKEY" (at_lookup 2 Sample.start "locked") "locked" Sample.result_hello.
Proof. econstructor; by_running. Qed.

Lemma C1_witness :
  let st := Sample.start in
  let row := Sample.entry "mute" "silent" in
  let rest := [Sample.entry "hello" "a greeting"] in
  ((2 ≤ length (Cells row))%nat ∧
   (translation_fails Sample.world "YKEY" 2 st row
    ∨ synthesis_fails Sample.world "YKEY" "EKEY" 2 st row)) ∧
  emitted (one_row st row) = emitted st ∧
  emitted (all_rows (row :: rest) st)
  = [["hello"; "a greeting"; "[sound:hello.mp3]"; "privet"]].
Proof.
  assert (Hlen : (2 ≤ length (Cells (Sample.entry "mute" "silent")))%nat) by (simpl; lia).
  assert (Hfail : translation_fails Sample.world "YKEY" 2 Sample.start (Sample.entry "mute" "silent")
                  ∨ synthesis_fails Sample.world "YKEY" "EKEY" 2 Sample.start (Sample.entry "mute" "silent")).
  { right. split; [| split].
    - exists Sample.result_zero. econstructor; by_running.
    - by_running.
    - eapply status_fails; [econstructor |..]; by_running. }
  pose proof (C1_failure_drops_one_row Sample.world "YKEY" "EKEY" 2 Sample.start
                (Sample.entry "mute" "silent") [Sample.entry "hello" "a greeting"] Hlen Hfail)
    as (Hem & _ & Hloop & _).
  split; [exact (conj Hlen Hfail) |]. split; [exact Hem |].
  cbv zeta. rewrite Hloop. by_running.
Defined.

Lemma C2_witness :
  let pre := [Sample.entry "void" "emptiness"] in
  let row := Sample.entry "hello" "a greeting" in
  fs Sample.cached !! audioPath Sample.world (entry_word row) = Some "" ∧
  synthesis_requests (one_row (all_rows pre Sample.cached) row)
  = synthesis_requests (all_rows pre Sample.cached).
Proof.
  assert (Hfile : fs Sample.cached
                    !! audioPath Sample.world (entry_word (Sample.entry "hello" "a greeting"))
                  = Some "") by by_running.
  split; [exact Hfile |].
  exact (C2_cached_word_is_not_synthesized Sample.world "YKEY" "EKEY" 2 Sample.cached
           [Sample.entry "void" "emptiness"] (Sample.entry "hello" "a greeting") "" Hfile).
Defined.

(** A body that does not decode: [broken] is skipped. *)
Example sample_broken :
  let row := Sample.entry "broken" "out of order" in
  translation_fails Sample.world "YKEY" 2 Sample.start row ∧
  emitted (one_row Sample.start row) = emitted Sample.start ∧
  synthesis_requests (one_row Sample.start row) = synthesis_requests Sample.start.
Proof.
  cbv zeta.
  assert (Hlen : (2 ≤ length (Cells (Sample.entry "broken" "out of order")))%nat) by (simpl; lia).
  assert (Hget : net_Get Sample.world (at_lookup 2 Sample.start "broken") (url "YKEY" "broken")
                 = inl {| StatusCode := 200; Body := {| data := "<html>"; failure := None |} |})
    by by_running.
  assert (Hbad : ∃ err, json_Unmarshal Sample.world "<html>" = inr err) by (eexists; by_running).
  exact (proj1 (malformed_body_skips Sample.world "YKEY" "EKEY" 2 Sample.start
                  (Sample.entry "broken" "out of order") _ Hlen Hget) (or_intror Hbad)).
Qed.

(** C3 fails on the code.  The dictionary service answers [denied] with
    status 403 and a body that decodes: the lookup does not fail, the
    row is not skipped, its clip is requested from the speech service and
    its record is written, with an empty translation.  (The speech
    service's status is checked, lines 222-227; the dictionary's is not.) *)
Theorem C3_status_is_not_checked :
  let row := Sample.entry "denied" "refused" in
  net_Get Sample.world (at_lookup 2 Sample.start "denied") (url "YKEY" "denied")
  = Sample.ok 403 "{}" ∧
  (403 ≠ StatusOK)%Z ∧
  translation_stage Sample.world "YKEY" 2 "denied" (at_lookup 2 Sample.start "denied")
  = (Next "", at_audio "YKEY" 2 Sample.start "denied") ∧
  emitted (one_row Sample.start row) = [["denied"; "refused"; "[sound:denied.mp3]"; ""]] ∧
  length (synthesis_requests (one_row Sample.start row)) = 1%nat.
Proof. repeat split; by_running. Qed.

Lemma C4_witness :
  let row := Sample.entry "void" "emptiness" in
  ((2 ≤ length (Cells row))%nat ∧
   Translated Sample.world "YKEY" (at_lookup 2 Sample.start "void") "void" Sample.result_zero ∧
   Def Sample.result_zero = [] ∧
   AudioReady Sample.world "EKEY" (at_audio "YKEY" 2 Sample.start "void") "void") ∧
  emitted (one_row Sample.start row)
  = [["void"; "emptiness"; "[sound:void.mp3]"; ""]].
Proof.
  cbv zeta.
  assert (Hlen : (2 ≤ length (Cells (Sample.entry "void" "emptiness")))%nat) by (simpl; lia).
  split; [exact (conj Hlen (conj void_translated (conj eq_refl void_audio_ready))) |].
  exact (proj1 (proj2 (proj2 (C4_empty_translation_is_emitted Sample.world "YKEY" "EKEY" 2
                                Sample.start (Sample.entry "void" "emptiness") Sample.result_zero
                                Hlen void_translated (or_introl eq_refl))))
           void_audio_ready).
Defined.

(** C5 fails on the code.  [os.Stat] on [audio/locked.mp3] fails with a
    permission error: the row's record is written with the tag
    [[sound:locked.mp3]], and no file [audio/locked.mp3] is there.  The
    same for a word of 252 letters, whose file name [os.Stat] refuses as
    too long. *)
Theorem C5_row_without_file :
  (let st' := one_row Sample.start (Sample.entry "locked" "shut") in
   emitted st' = [["locked"; "shut"; "[sound:locked.mp3]"; "privet"]] ∧
   fs st' !! audioPath Sample.world "locked" = None) ∧
  (let word := Sample.letters 252 in
   let st' := one_row Sample.start (Sample.entry word "a long word") in
   emitted st' = [[word; "a long word"; "[sound:" +:+ word +:+ ".mp3]"; ""]] ∧
   fs st' !! audioPath Sample.world word = None).
Proof. split; split; by_running. Qed.

Lemma C7_witness :
  processed Sample.start (Sample.entry "hello" "a greeting") Sample.result_hello ∧
  ∃ tr,
    emitted (one_row Sample.start (Sample.entry "hello" "a greeting"))
    = [["hello"; "a greeting"; "[sound:hello.mp3]"; tr]] ∧ tr = "privet".
Proof.
  split; [exact hello_processed |].
  destruct (C7_first_translation_or_empty Sample.world "YKEY" "EKEY" 2 Sample.start
              (Sample.entry "hello" "a greeting") Sample.result_hello hello_processed)
    as (tr & Hem & Hfirst & _).
  exists tr. split; [exact Hem |].
  exact (Hfirst _ _ _ _ eq_refl eq_refl).
Defined.

(** C7 as the specification words it fails: the answer for [bare] has a
    definition, the definition has no translation, and the record carries
    the empty string. *)
Lemma C7_counterexample :
  ¬ (∀ result,
       processed Sample.start (Sample.entry "bare" "naked") result ->
       Def result ≠ [] ->
       ∃ d t, Def result !! 0%nat = Some d ∧ Tr d !! 0%nat = Some t ∧
         emitted (one_row Sample.start (Sample.entry "bare" "naked"))
         = emitted Sample.start
           ++ [["bare"; "naked"; "[sound:bare.mp3]"; Translation_Text t]]).
Proof.
  intros Hclaim.
  destruct (Hclaim Sample.result_bare bare_processed) as (d & t & Hd & Ht & _).
  - discriminate.
  - simpl in Hd. injection Hd as <-. discriminate Ht.
Qed.

Example sample_bare :
  emitted (one_row Sample.start (Sample.entry "bare" "naked"))
  = [["bare"; "naked"; "[sound:bare.mp3]"; ""]].
Proof. by_running. Qed.

(** C8 as the specification words it fails: a row of two empty cells has
    no non-empty cell, and still its word is looked up, its clip
    requested and its record written. *)
Lemma C8_counterexample :
  let row := Sample.entry "" "" in
  let st' := one_row Sample.start row in
  ¬ (¬ (2 ≤ length (filter (fun c => Value c ≠ "") (Cells row)))%nat ->
     emitted st' = emitted Sample.start ∧
     translation_requests st' = translation_requests Sample.start ∧
     synthesis_requests st' = synthesis_requests Sample.start).
Proof.
  cbv zeta. intros Hclaim.
  destruct Hclaim as (Hem & _).
  - vm_compute. lia.
  - revert Hem. by_running.
Qed.

Example sample_empty_cells :
  emitted (one_row Sample.start (Sample.entry "" ""))
  = [[""; ""; "[sound:.mp3]"; ""]] ∧
  translation_requests (one_row Sample.start (Sample.entry "" ""))
  = ["https://dictionary.yandex.net/api/v1/dicservice.json/lookup?key=YKEY&lang=en-ru&text="].
Proof. split; by_running. Qed.

Lemma C9_witness :
  processed Sample.start (Sample.entry "hello" "a greeting") Sample.result_hello ∧
  emitted (one_row Sample.start (Sample.entry "hello" "a greeting"))
  = [["hello"; "a greeting"; "[sound:hello.mp3]"; "privet"]].
Proof.
  split; [exact hello_processed |].
  exact (C9_record_fields Sample.world "YKEY" "EKEY" 2 Sample.start
           (Sample.entry "hello" "a greeting") Sample.result_hello hello_processed).
Defined.

Lemma C10_witness :
  let row := Sample.entry "locked" "shut" in
  ((2 ≤ length (Cells row))%nat ∧
   Translated Sample.world "YKEY" (at_lookup 2 Sample.start "locked") "locked" Sample.result_hello ∧
   stat_fault Sample.world (at_audio "YKEY" 2 Sample.start "locked")
     (audioPath Sample.world "locked") = Some "permission denied") ∧
  synthesis_requests (one_row Sample.start row) = synthesis_requests Sample.start ∧
  emitted (one_row Sample.start row)
  = emitted Sample.start ++ [["locked"; "shut"; "[sound:locked.mp3]"; "privet"]] ∧
  fs (one_row Sample.start row) = fs Sample.start.
Proof.
  cbv zeta.
  assert (Hlen : (2 ≤ length (Cells (Sample.entry "locked" "shut")))%nat) by (simpl; lia).
  assert (Hstat : stat_fault Sample.world (at_audio "YKEY" 2 Sample.start "locked")
                    (audioPath Sample.world "locked") = Some "permission denied") by by_running.
  split; [exact (conj Hlen (conj locked_translated Hstat)) |].
  exact (proj2 (C10_stat_error_counts_as_cached Sample.world "YKEY" "EKEY" 2 Sample.start
                  (Sample.entry "locked" "shut") Sample.result_hello "permission denied"
                  Hlen locked_translated Hstat)).
Defined.

(** * The whole program: [main], lines 64-269

    What [main] does before and after the loop.  The spreadsheet library,
    the environment, [os.MkdirAll] and the deferred [csvWriter.Flush] and
    [outputFile.Close] are the fields of [Process].  The file map holds
    [output.csv] as [os.Create] leaves it and, after a normal return, as
    the deferred calls leave it; the bytes the CSV writer passes on in
    between are not tracked.  Directories are not in the file map. *)

(** [xlsx.Sheet] and [xlsx.File]. *)
Record Sheet := { Rows : list Row }.
Record File := { Sheets : list Sheet }.

#[global] Instance Sheet_inhabited : Inhabited Sheet := populate {| Rows := [] |}.

(** How the process ends: [main] returns, or [os.Exit(code)] is called
    (by [log.Fatal] and [log.Fatalf], with code 1; deferred calls do not
    run then). *)
Inductive Exit :=
| Returned
| Exited (code : Z).

Record Process := {
  (** [os.Args] *)
  os_Args : list string;
  (** [xlsx.OpenFile] *)
  xlsx_OpenFile : string -> result File;
  (** The error of [godotenv.Load] *)
  godotenv_Load : option error;
  (** [os.Getenv], after [godotenv.Load] *)
  os_Getenv : string -> string;
  (** [os.MkdirAll] failing *)
  mkdir_fault : State -> string -> option error;
  (** What the deferred [csvWriter.Flush] and [outputFile.Close] leave
      in [output.csv]. *)
  flushed : State -> string
}.

(** [log.Fatalf] and [log.Fatal]: the line is logged, the process exits
    with status 1. *)
Definition log_Fatalf (format : string) (args : list Arg) (st : State) : Exit * State :=
  (Exited 1, record_event (EvLog format args) st).

(** Lines 83-88: the rows of two or more cells, counted. *)
Fixpoint count_words (rows : list Row) (totalWords : Z) : Z :=
  match rows with
  | [] => totalWords
  | row :: rest =>
      count_words rest
        (if bool_decide (2 ≤ length (Cells row))%nat then (totalWords + 1)%Z else totalWords)
  end.

(** Lines 101-103: a missing [.env] file is a warning. *)
Definition after_godotenv (os : Process) (st : State) : State :=
  match godotenv_Load os with
  | Some _ => record_event (EvLog "Warning: .env file not found" []) st
  | None => st
  end.

(** Lines 267-268, and the deferred calls of lines 95 and 99. *)
Definition finish (os : Process) (totalWords : Z) (st : State) : State :=
  let st := record_event
              (EvPrint "\r\033[2KProcessing %d words complete. Output written to output.csv\n"
                 [AInt totalWords]) st in
  let st := record_event
              (EvPrint "Audio files saved to the '%s' directory\n" [AStr audioDir]) st in
  write_file "output.csv" (flushed os st) st.

Definition main (ext : Extern) (os : Process) (st : State) : Exit * State :=
  if bool_decide (length (os_Args os) < 2)%nat then
    (Returned, record_event (EvPrint "Usage: go run main.go <excel_file>" []) st)
  else
  let excelFile := os_Args os !!! 1%nat in
  match xlsx_OpenFile os excelFile with
  | inr err => log_Fatalf "Failed to open Excel file: %v" [AErr err] st
  | inl xlFile =>
  if bool_decide (length (Sheets xlFile) = 0)%nat then
    log_Fatalf "No sheets found in the Excel file." [] st
  else
  let sheet := Sheets xlFile !!! 0%nat in
  let totalWords := count_words (Rows sheet) 0 in
  match os_Create ext "output.csv" st with
  | (Continue, st) => (Returned, st)
  | (Next (inr err), st) => log_Fatalf "Failed to create output.csv: %v" [AErr err] st
  | (Next (inl outputFile), st) =>
  let st := after_godotenv os st in
  let yandexAPIKey := os_Getenv os "YANDEX_API_KEY" in
  if bool_decide (yandexAPIKey = "") then
    log_Fatalf "YANDEX_API_KEY environment variable is required" [] st
  else
  let elevenLabsAPIKey := os_Getenv os "ELEVENLABS_API_KEY" in
  if bool_decide (elevenLabsAPIKey = "") then
    log_Fatalf "ELEVENLABS_API_KEY environment variable is required" [] st
  else
  match mkdir_fault os st audioDir with
  | Some err => log_Fatalf "Failed to create audio directory: %v" [AErr err] st
  | None =>
  let st := mkState (fs st) (trace st) 0 in
  let st := range_Rows ext yandexAPIKey elevenLabsAPIKey totalWords (Rows sheet) st in
  (Returned, finish os totalWords st)
  end end end.

(** The state in which the loop starts: [output.csv] created, the
    warning logged if there was one, the counter at 0. *)
Definition loop_start (os : Process) (st : State) : State :=
  let st := after_godotenv os (write_file "output.csv" "" st) in
  mkState (fs st) (trace st) 0.

(** Nothing stops [main] before the loop, which runs over [sheet]. *)
Inductive Started (ext : Extern) (os : Process) (st : State) (sheet : Sheet) : Prop :=
| started excelFile xlFile :
    os_Args os !! 1%nat = Some excelFile ->
    xlsx_OpenFile os excelFile = inl xlFile ->
    Sheets xlFile !! 0%nat = Some sheet ->
    create_fault ext st "output.csv" = None ->
    os_Getenv os "YANDEX_API_KEY" ≠ "" ->
    os_Getenv os "ELEVENLABS_API_KEY" ≠ "" ->
    mkdir_fault os (after_godotenv os (write_file "output.csv" "" st)) audioDir = None ->
    Started ext os st sheet.

(** The state at the end of the loop of a started run. *)
Definition loop_end (ext : Extern) (os : Process) (st : State) (sheet : Sheet) : State :=
  range_Rows ext (os_Getenv os "YANDEX_API_KEY") (os_Getenv os "ELEVENLABS_API_KEY")
    (count_words (Rows sheet) 0) (Rows sheet) (loop_start os st).

(** ** A sample office: a workbook, an environment, and two worlds with
    a failing disk *)

Module Office.

(** One sheet of four rows, the third with a single cell. *)
Definition book : File :=
  {| Sheets :=
       [ {| Rows := [ Sample.entry "hello" "a greeting";
                      Sample.entry "mute" "silent";
                      {| Cells := [ {| Value := "lonely" |} ] |};
                      Sample.entry "bare" "naked" ] |};
         {| Rows := [ Sample.entry "void" "emptiness" ] |} ] |}.

Definition open (name : string) : result File :=
  if decide (name = "words.xlsx") then inl book
  else inr (ErrOther "open: no such file or directory").

(** The records, each on a line, its fields between semicolons (what
    the CSV writer makes of fields that need no quotes). *)
Fixpoint line (record : list string) : string :=
  match record with
  | [] => EmptyString
  | [field] => field
  | field :: rest => field +:+ ";" +:+ line rest
  end.
Fixpoint lines (records : list (list string)) : string :=
  match records with
  | [] => EmptyString
  | record :: rest => line record +:+ String (ascii_of_nat 10) (lines rest)
  end.

Definition desk (yandexKey : string) : Process :=
  {| os_Args := ["main"; "words.xlsx"];
     xlsx_OpenFile := open;
     godotenv_Load := None;
     os_Getenv := fun name =>
       if decide (name = "YANDEX_API_KEY") then yandexKey
       else if decide (name = "ELEVENLABS_API_KEY") then "EKEY"
       else "";
     mkdir_fault := fun _ _ => None;
     flushed := fun st => lines (emitted st) |}.

(** A disk that takes two bytes of a clip and no more. *)
Definition full_disk : Extern :=
  {| net_Get := net_Get Sample.world;
     net_Do := net_Do Sample.world;
     json_Unmarshal := json_Unmarshal Sample.world;
     json_Marshal := json_Marshal Sample.world;
     NewRequest_err := NewRequest_err Sample.world;
     filepath_Join := filepath_Join Sample.world;
     stat_fault := stat_fault Sample.world;
     create_fault := create_fault Sample.world;
     write_fault := fun _ _ => Some (2%nat, ErrOther "no space left on device");
     csv_fault := csv_fault Sample.world |}.

(** A CSV writer that refuses every record. *)
Definition closed_sink : Extern :=
  {| net_Get := net_Get Sample.world;
     net_Do := net_Do Sample.world;
     json_Unmarshal := json_Unmarshal Sample.world;
     json_Marshal := json_Marshal Sample.world;
     NewRequest_err := NewRequest_err Sample.world;
     filepath_Join := filepath_Join Sample.world;
     stat_fault := stat_fault Sample.world;
     create_fault := create_fault Sample.world;
     write_fault := write_fault Sample.world;
     csv_fault := fun _ _ => Some (ErrOther "write output.csv: file already closed") |}.

(** A disk holding the output of an earlier run. *)
Definition earlier : State :=
  mkState {[ "output.csv" := "old;rows;[sound:old.mp3];here" ]} [] 0.

End Office.

(** ** Before and after the loop *)

Lemma main_started ext os st sheet :
  Started ext os st sheet ->
  main ext os st = (Returned, finish os (count_words (Rows sheet) 0) (loop_end ext os st sheet)).
Proof.
  intros [excelFile xlFile Hargs Hopen Hsheet Hcreate Hkey1 Hkey2 Hmkdir].
  unfold main.
  rewrite bool_decide_eq_false_2
    by (apply lookup_lt_Some in Hargs; lia).
  rewrite (list_lookup_total_correct _ _ _ Hargs), Hopen.
  rewrite bool_decide_eq_false_2
    by (apply lookup_lt_Some in Hsheet; lia).
  rewrite (list_lookup_total_correct _ _ _ Hsheet).
  unfold os_Create. rewrite Hcreate.
  rewrite !bool_decide_eq_false_2 by assumption.
  rewrite Hmkdir. reflexivity.
Qed.

Ltac watch :=
  unfold emitted, synthesis_requests, translation_requests; simpl;
  rewrite ?omap_app; simpl; rewrite ?app_nil_r.


(** X9: when [main] ends in any way other than by returning, it ends
    with exit status 1 and before the first row: nothing was sent to
    either service, no record was handed to the CSV writer, and no file
    was changed, except that [output.csv] may have been emptied. *)
Theorem fatal_exit_before_any_word ext os st :
  fst (main ext os st) ≠ Returned ->
  fst (main ext os st) = Exited 1 ∧
  translation_requests (snd (main ext os st)) = translation_requests st ∧
  synthesis_requests (snd (main ext os st)) = synthesis_requests st ∧
  emitted (snd (main ext os st)) = emitted st ∧
  (∀ p, p ≠ "output.csv" -> fs (snd (main ext os st)) !! p = fs st !! p) ∧
  (fs (snd (main ext os st)) !! "output.csv" = fs st !! "output.csv"
   ∨ fs (snd (main ext os st)) !! "output.csv" = Some "").
Proof.
  unfold main, log_Fatalf, os_Create, after_godotenv.
  repeat match goal with
         | |- context [bool_decide ?P] => destruct (bool_decide P)
         | |- context [match ?x with _ => _ end] =>
             lazymatch x with
             | context [match _ with _ => _ end] => fail
             | _ => destruct x
             end
         end;
    cbn [fst snd]; intros Hexit; try (destruct Hexit; reflexivity);
    watch; repeat split; auto; intros;
    rewrite ?lookup_insert_ne by auto; rewrite ?lookup_insert_eq; auto.
Qed.

(** X10: [output.csv] is created before the API keys are read and the
    audio directory is made: when the workbook opens and has a sheet and
    [output.csv] can be created, a missing key or a failing [MkdirAll]
    ends the run with status 1 and leaves [output.csv] empty, whatever it
    held before. *)
Theorem startup_failure_empties_output ext os st excelFile xlFile :
  os_Args os !! 1%nat = Some excelFile ->
  xlsx_OpenFile os excelFile = inl xlFile ->
  Sheets xlFile ≠ [] ->
  create_fault ext st "output.csv" = None ->
  (os_Getenv os "YANDEX_API_KEY" = ""
   ∨ os_Getenv os "ELEVENLABS_API_KEY" = ""
   ∨ ∃ err, mkdir_fault os (after_godotenv os (write_file "output.csv" "" st)) audioDir
            = Some err) ->
  fst (main ext os st) = Exited 1 ∧
  fs (snd (main ext os st)) !! "output.csv" = Some "".
Proof.
  intros Hargs Hopen Hsheets Hcreate Hstop.
  assert (Hfs : fs (after_godotenv os (write_file "output.csv" "" st)) !! "output.csv" = Some "").
  { unfold after_godotenv. destruct (godotenv_Load os); simpl; apply lookup_insert_eq. }
  unfold main.
  rewrite bool_decide_eq_false_2 by (apply lookup_lt_Some in Hargs; lia).
  rewrite (list_lookup_total_correct _ _ _ Hargs), Hopen.
  rewrite bool_decide_eq_false_2 by (destruct (Sheets xlFile); [congruence | simpl; lia]).
  unfold os_Create. rewrite Hcreate.
  destruct (decide (os_Getenv os "YANDEX_API_KEY" = "")) as [Hk1 | Hk1].
  { rewrite bool_decide_eq_true_2 by assumption. split; [reflexivity | exact Hfs]. }
  rewrite bool_decide_eq_false_2 by assumption.
  destruct (decide (os_Getenv os "ELEVENLABS_API_KEY" = "")) as [Hk2 | Hk2].
  { rewrite bool_decide_eq_true_2 by assumption. split; [reflexivity | exact Hfs]. }
  rewrite bool_decide_eq_false_2 by assumption.
  destruct Hstop as [Hk | [Hk | [err Hmk]]]; [congruence | congruence |].
  rewrite Hmk. split; [reflexivity | exact Hfs].
Qed.

(** X11: [main] returns (exit status 0) in two cases only: it was
    called without a file name and printed the usage line, or nothing
    stopped it before the loop.  What happens to the words in the loop
    never changes how the process ends. *)
Theorem main_returns_iff_started ext os st :
  fst (main ext os st) = Returned
  ↔ (length (os_Args os) < 2)%nat ∨ ∃ sheet, Started ext os st sheet.
Proof.
  split.
  - unfold main.
    destruct (decide (length (os_Args os) < 2)%nat) as [Hshort | Hargs]; [auto |].
    rewrite bool_decide_eq_false_2 by assumption.
    destruct (lookup_lt_is_Some_2 (os_Args os) 1%nat ltac:(lia)) as [excelFile Hfile].
    rewrite (list_lookup_total_correct _ _ _ Hfile).
    destruct (xlsx_OpenFile os excelFile) as [xlFile | err] eqn:Hopen; [| discriminate].
    destruct (decide (length (Sheets xlFile) = 0)%nat) as [Hnone | Hsome].
    { rewrite bool_decide_eq_true_2 by assumption. discriminate. }
    rewrite bool_decide_eq_false_2 by assumption.
    destruct (lookup_lt_is_Some_2 (Sheets xlFile) 0%nat ltac:(lia)) as [sheet Hsheet].
    unfold os_Create.
    destruct (create_fault ext st "output.csv") eqn:Hcreate; [discriminate |].
    destruct (decide (os_Getenv os "YANDEX_API_KEY" = "")) as [Hk1 | Hk1].
    { rewrite bool_decide_eq_true_2 by assumption. discriminate. }
    rewrite bool_decide_eq_false_2 by assumption.
    destruct (decide (os_Getenv os "ELEVENLABS_API_KEY" = "")) as [Hk2 | Hk2].
    { rewrite bool_decide_eq_true_2 by assumption. discriminate. }
    rewrite bool_decide_eq_false_2 by assumption.
    destruct (mkdir_fault os (after_godotenv os (write_file "output.csv" "" st)) audioDir)
      eqn:Hmk; [discriminate |].
    intros _. right. exists sheet. econstructor; eauto.
  - intros [Hshort | [sheet Hstarted]].
    + unfold main. rewrite bool_decide_eq_true_2 by assumption. reflexivity.
    + rewrite (main_started _ _ _ _ Hstarted). reflexivity.
Qed.


(** ** The further properties at work *)

(** The office's run: the lonely row is passed over, [mute] is refused
    by the speech service, the two other rows of the first sheet are
    written. *)
Example office_run :
  let final := snd (main Sample.world (Office.desk "YKEY") Sample.start) in
  fst (main Sample.world (Office.desk "YKEY") Sample.start) = Returned ∧
  emitted final = [["hello"; "a greeting"; "[sound:hello.mp3]"; "privet"];
                   ["bare"; "naked"; "[sound:bare.mp3]"; ""]] ∧
  length (translation_requests final) = 3%nat ∧
  length (synthesis_requests final) = 3%nat ∧
  processedWords final = 2%Z.
Proof. repeat split; by_running. Qed.

Lemma hello_looked_up :
  ∃ result, Translated Sample.world "YKEY" (at_lookup 2 Sample.start "hello") "hello" result.
Proof. exists Sample.result_hello. econstructor; by_running. Qed.

Lemma hello_prepared :
  Prepared Sample.world "EKEY" "hello"
    (speech_request "EKEY"
       (Sample.encode_text (elevenLabsReq "hello"))).
Proof. econstructor; by_running. Qed.

Lemma synthesized_clip_is_reused_witness :
  let row := Sample.entry "hello" "a greeting" in
  (eligible row ∧
   CacheMiss Sample.world (at_audio "YKEY" 2 Sample.start "hello") "hello" ∧
   Synthesized Sample.world "EKEY" (at_audio "YKEY" 2 Sample.start "hello") "hello") ∧
  ∀ mid row',
    entry_word row' = "hello" ->
    synthesis_requests (one_row (all_rows mid (one_row Sample.start row)) row')
    = synthesis_requests (all_rows mid (one_row Sample.start row)).
Proof.
  cbv zeta.
  assert (Hlen : eligible (Sample.entry "hello" "a greeting")) by (unfold eligible; simpl; lia).
  assert (Hmiss : CacheMiss Sample.world (at_audio "YKEY" 2 Sample.start "hello") "hello")
    by by_running.
  assert (Hsyn : Synthesized Sample.world "EKEY" (at_audio "YKEY" 2 Sample.start "hello") "hello")
    by (econstructor; [exact hello_prepared |..]; by_running).
  split; [exact (conj Hlen (conj Hmiss Hsyn)) |].
  exact (proj2 (synthesized_clip_is_reused Sample.world "YKEY" "EKEY" 2 Sample.start
                  (Sample.entry "hello" "a greeting") Hlen hello_looked_up Hmiss Hsyn)).
Defined.

Lemma broken_copy_leaves_a_file_witness :
  let row := Sample.entry "hello" "a greeting" in
  let st' := iteration Office.full_disk "YKEY" "EKEY" 2 Sample.start row in
  CopyFails Office.full_disk (at_audio "YKEY" 2 Sample.start "hello") "hello"
    (speech_request "EKEY" (Sample.encode_text (elevenLabsReq "hello")))
    {| StatusCode := 200; Body := {| data := "ID3"; failure := None |} |} "ID" ∧
  emitted st' = emitted Sample.start ∧
  fs st' !! "audio/hello.mp3" = Some "ID" ∧
  emitted (iteration Office.full_disk "YKEY" "EKEY" 2 st' row)
  = [["hello"; "a greeting"; "[sound:hello.mp3]"; "privet"]].
Proof.
  cbv zeta.
  assert (Hlen : eligible (Sample.entry "hello" "a greeting")) by (unfold eligible; simpl; lia).
  assert (Htr : ∃ result, Translated Office.full_disk "YKEY" (at_lookup 2 Sample.start "hello")
                            "hello" result)
    by (exists Sample.result_hello; econstructor; by_running).
  assert (Hmiss : CacheMiss Office.full_disk (at_audio "YKEY" 2 Sample.start "hello") "hello")
    by by_running.
  assert (Hprep : Prepared Office.full_disk "EKEY" "hello"
                    (speech_request "EKEY" (Sample.encode_text (elevenLabsReq "hello"))))
    by (econstructor; by_running).
  assert (Hcopy : CopyFails Office.full_disk (at_audio "YKEY" 2 Sample.start "hello") "hello"
                    (speech_request "EKEY" (Sample.encode_text (elevenLabsReq "hello")))
                    {| StatusCode := 200; Body := {| data := "ID3"; failure := None |} |} "ID")
    by (eapply copy_write_fails with (n := 2%nat); by_running).
  pose proof (broken_copy_leaves_a_file Office.full_disk "YKEY" "EKEY" 2 Sample.start
                (Sample.entry "hello" "a greeting") _ _ "ID" Hlen Htr Hmiss Hprep
                eq_refl eq_refl eq_refl Hcopy) as (Hem & Hfile & _).
  split; [exact Hcopy |]. split; [exact Hem |]. split; [exact Hfile |].
  by_running.
Defined.

Lemma refused_synthesis_leaves_no_file_witness :
  let row := Sample.entry "mute" "silent" in
  (eligible row ∧
   net_Do Sample.world (at_audio "YKEY" 2 Sample.start "mute")
     (speech_request "EKEY" Sample.mute_payload) = Sample.ok 500 "{}") ∧
  emitted (one_row Sample.start row) = emitted Sample.start ∧
  fs (one_row Sample.start row) = fs Sample.start ∧
  synthesis_requests (one_row Sample.start row)
  = synthesis_requests Sample.start ++ [speech_request "EKEY" Sample.mute_payload].
Proof.
  cbv zeta.
  assert (Hlen : eligible (Sample.entry "mute" "silent")) by (unfold eligible; simpl; lia).
  assert (Htr : ∃ result, Translated Sample.world "YKEY" (at_lookup 2 Sample.start "mute")
                            "mute" result)
    by (exists Sample.result_zero; econstructor; by_running).
  assert (Hmiss : CacheMiss Sample.world (at_audio "YKEY" 2 Sample.start "mute") "mute")
    by by_running.
  assert (Hprep : Prepared Sample.world "EKEY" "mute" (speech_request "EKEY" Sample.mute_payload))
    by (econstructor; by_running).
  assert (Hdo : net_Do Sample.world (at_audio "YKEY" 2 Sample.start "mute")
                  (speech_request "EKEY" Sample.mute_payload) = Sample.ok 500 "{}")
    by by_running.
  split; [exact (conj Hlen Hdo) |].
  apply (refused_synthesis_leaves_no_file Sample.world "YKEY" "EKEY" 2 Sample.start
           (Sample.entry "mute" "silent") _ Hlen Htr Hmiss Hprep).
  right. eexists. split; [exact Hdo |]. by_running.
Defined.

Lemma refused_record_is_still_counted_witness :
  let row := Sample.entry "hello" "a greeting" in
  let st' := iteration Office.closed_sink "YKEY" "EKEY" 2 Sample.start row in
  Processed Office.closed_sink "YKEY" "EKEY" 2 Sample.start row Sample.result_hello ∧
  processedWords st' = 1%Z ∧
  last (trace st')
  = Some (EvPrint "Current progress: %d/%d" [AInt 0; AInt 2]).
Proof.
  cbv zeta.
  assert (Hproc : Processed Office.closed_sink "YKEY" "EKEY" 2 Sample.start
                    (Sample.entry "hello" "a greeting") Sample.result_hello).
  { split; [simpl; lia |]. split.
    - econstructor; by_running.
    - right. split; [by_running |]. econstructor; [econstructor |..]; by_running. }
  pose proof (refused_record_is_still_counted Office.closed_sink "YKEY" "EKEY" 2 Sample.start
                (Sample.entry "hello" "a greeting") Sample.result_hello _ Hproc eq_refl)
    as (Htrace & Hpw & _).
  split; [exact Hproc |]. split; [exact Hpw |].
  rewrite Htrace. by_running.
Defined.

Lemma fatal_exit_before_any_word_witness :
  fst (main Sample.world (Office.desk "") Office.earlier) ≠ Returned ∧
  fst (main Sample.world (Office.desk "") Office.earlier) = Exited 1 ∧
  translation_requests (snd (main Sample.world (Office.desk "") Office.earlier)) = [] ∧
  emitted (snd (main Sample.world (Office.desk "") Office.earlier)) = [].
Proof.
  assert (Hexit : fst (main Sample.world (Office.desk "") Office.earlier) ≠ Returned)
    by by_running.
  pose proof (fatal_exit_before_any_word Sample.world (Office.desk "") Office.earlier Hexit)
    as (H1 & Ht & _ & Hem & _).
  split; [exact Hexit |]. split; [exact H1 |]. split; [exact Ht | exact Hem].
Defined.

Lemma startup_failure_empties_output_witness :
  fs Office.earlier !! "output.csv" = Some "old;rows;[sound:old.mp3];here" ∧
  os_Getenv (Office.desk "") "YANDEX_API_KEY" = "" ∧
  fst (main Sample.world (Office.desk "") Office.earlier) = Exited 1 ∧
  fs (snd (main Sample.world (Office.desk "") Office.earlier)) !! "output.csv" = Some "".
Proof.
  split; [by_running |]. split; [reflexivity |].
  apply (startup_failure_empties_output Sample.world (Office.desk "") Office.earlier
           "words.xlsx" Office.book); try reflexivity.
  - discriminate.
  - left. reflexivity.
Defined.



(** After the office's run [output.csv] holds the two records. *)
Example office_output :
  fs (snd (main Sample.world (Office.desk "YKEY") Sample.start)) !! "output.csv"
  = Some (Office.lines [["hello"; "a greeting"; "[sound:hello.mp3]"; "privet"];
                        ["bare"; "naked"; "[sound:bare.mp3]"; ""]]).
Proof. by_running. Qed.
